(** * Feature navigation scripts for ArcGIS Pro and ArcMap

    A shallow embedding of the two record navigators of the repository:

    - [FeatureNavigator] of [navigateLayerArcGISPro.py]: the record list
      [features], the dictionary [oid_map] from identifier to position and the
      cursor [current_index];
    - [NavigationTool] of [navigateLayerArcMap.py]: the record list
      [feature_records] and the cursor [current_index].

    Python integers are [Z]; lists are Coq lists read with Python's indexing
    rule (negative indices count from the end, anything else out of range
    raises [IndexError]); dictionaries are stdpp finite maps.  A method is a
    function from the object's fields to the new fields and what the call
    returned or raised.  Printing, message boxes and the pan of the map view
    only touch the console and the host application, and [pan_to_feature]
    swallows its own exceptions, so they are left out of the state. *)

From Stdlib Require Import ZArith Lia Sorted.
From stdpp Require Import gmap strings list fin_maps.

Local Open Scope Z_scope.

(** ** Python values and calls *)

(** The values a caller can pass as the [value] of a filter and the values an
    attribute dictionary can hold (floats are not modelled). *)
Inductive pyval :=
  | PyNone
  | PyBool (b : bool)
  | PyInt (n : Z)
  | PyStr (s : string).

(** The Python type of a value; [bool] and [int] are different types. *)
Inductive pytype := TNone | TBool | TInt | TStr.

Definition type_of (v : pyval) : pytype :=
  match v with
  | PyNone => TNone
  | PyBool _ => TBool
  | PyInt _ => TInt
  | PyStr _ => TStr
  end.

(** [bool] is a subclass of [int]: [True] is [1] and [False] is [0]. *)
Definition as_number (v : pyval) : option Z :=
  match v with
  | PyBool true => Some 1
  | PyBool false => Some 0
  | PyInt n => Some n
  | _ => None
  end.

(** Python's [a == b] on these values. *)
Definition py_eq (a b : pyval) : bool :=
  match a, b with
  | PyNone, PyNone => true
  | PyStr s, PyStr t => bool_decide (s = t)
  | _, _ =>
      match as_number a, as_number b with
      | Some x, Some y => bool_decide (x = y)
      | _, _ => false
      end
  end.

Inductive exn := IndexError | ValueError.

(** What a call did: it returned a value or an exception left it. *)
Inductive result (A : Type) :=
  | Ret (a : A)
  | Raise (e : exn).
Arguments Ret {A} a.
Arguments Raise {A} e.

(** [l[i]]: [None] stands for [IndexError]. *)
Definition py_getitem {A : Type} (l : list A) (i : Z) : option A :=
  let n := Z.of_nat (length l) in
  if bool_decide (0 <= i < n) then l !! Z.to_nat i
  else if bool_decide (- n <= i < 0) then l !! Z.to_nat (n + i)
  else None.

(** [not l] for a list. *)
Definition py_not {A : Type} (l : list A) : bool :=
  match l with
  | [] => true
  | _ :: _ => false
  end.

(** ** The data source *)

(** A geometry is opaque to the navigators: a handle of the host. *)
Record geometry := Shape { shape_handle : Z }.

(** A row of the search cursor over the fields [OID@] and [SHAPE@]. *)
Record row := Row { row_oid : option Z; row_shape : option geometry }.

(** The iteration of [arcpy.da.SearchCursor]: it yields a row and goes on,
    ends, or raises (also before the first row, when the source cannot be
    opened). *)
Inductive cursor :=
  | EndOfRows
  | NextRow (r : row) (rest : cursor)
  | ReadError.

(** The rows a scan sees before it ends or raises. *)
Fixpoint scanned_rows (c : cursor) : list row :=
  match c with
  | EndOfRows | ReadError => []
  | NextRow r rest => r :: scanned_rows rest
  end.

(** Whether the scan runs to its end. *)
Fixpoint completes (c : cursor) : bool :=
  match c with
  | EndOfRows => true
  | ReadError => false
  | NextRow _ rest => completes rest
  end.

(** A cursor over the given rows that ends normally. *)
Definition cursor_of (rows : list row) : cursor :=
  foldr NextRow EndOfRows rows.

(** A cursor that yields the given rows and then raises. *)
Definition failing_after (rows : list row) : cursor :=
  foldr NextRow ReadError rows.

(** Every row of the scan carries an identifier. *)
Definition identified (c : cursor) : Prop :=
  forall r, r ∈ scanned_rows c -> is_Some (row_oid r).

(** A layer of the map: what the scripts read of it.  Its data source is
    given by the scan a search cursor over it performs. *)
Record layer := Layer {
  layer_name : string;
  isFeatureLayer : bool;
  visible : bool;
  dataSource : cursor
}.

(** [range(n)]. *)
Definition py_range (n : Z) : list Z := Z.of_nat <$> seq 0 (Z.to_nat n).

(** ** navigateLayerArcGISPro.py *)

Module FeatureNavigator.

(** An element of [self.features]. *)
Record feature := Feature {
  oid : Z;
  geometry_of : option geometry;
  attributes : gmap string pyval
}.

(** The fields of the object the methods read and write. *)
Record navigator := Navigator {
  features : list feature;
  current_index : Z;
  oid_map : gmap Z Z
}.

Definition count (st : navigator) : Z := Z.of_nat (length (features st)).

Definition set_index (st : navigator) (i : Z) : navigator :=
  {| features := features st; current_index := i; oid_map := oid_map st |}.

(** The fields as [__init__] sets them before it loads. *)
Definition init : navigator :=
  {| features := []; current_index := 0; oid_map := ∅ |}.

(** The record [_load_features] appends for a row with identifier [o]. *)
Definition feature_of (o : Z) (g : option geometry) : feature :=
  {| oid := o; geometry_of := g; attributes := {[ "OID"%string := PyInt o ]} |}.

(** The loop [for i, row in enumerate(cursor)]: [i] counts every row
    scanned so far, [fs] and [m] are [self.features] and [self.oid_map].
    The boolean tells whether the loop ended without an exception. *)
Fixpoint scan (c : cursor) (i : Z) (fs : list feature) (m : gmap Z Z)
  : list feature * gmap Z Z * bool :=
  match c with
  | EndOfRows => (fs, m, true)
  | ReadError => (fs, m, false)
  | NextRow r rest =>
      match row_oid r with
      | Some o => scan rest (i + 1) (fs ++ [feature_of o (row_shape r)]) (<[o := i]> m)
      | None => scan rest (i + 1) fs m
      end
  end.

(** [_load_features]: both containers are emptied, the source is scanned,
    an empty result raises [ValueError]; the handler of the [try] prints
    and sets [self.features = []], nothing else. *)
Definition _load_features (st : navigator) (c : cursor) : navigator :=
  let '(fs, m, finished) := scan c 0 [] ∅ in
  if finished && negb (py_not fs)
  then {| features := fs; current_index := 0; oid_map := m |}
  else {| features := []; current_index := current_index st; oid_map := m |}.

(** The load went through the [try] block without an exception. *)
Definition load_ok (c : cursor) : bool :=
  let '(fs, _, finished) := scan c 0 [] ∅ in
  finished && negb (py_not fs).

(** [FeatureNavigator()] over a layer whose source scans as [c]. *)
Definition new (c : cursor) : navigator := _load_features init c.

Definition next_feature (st : navigator) : navigator * result bool :=
  if py_not (features st) then (st, Ret false)
  else
    let st' := set_index st ((current_index st + 1) `mod` count st) in
    match py_getitem (features st') (current_index st') with
    | Some _ => (st', Ret true)
    | None => (st', Raise IndexError)
    end.

Definition previous_feature (st : navigator) : navigator * result bool :=
  if py_not (features st) then (st, Ret false)
  else
    let st' := set_index st ((current_index st - 1) `mod` count st) in
    match py_getitem (features st') (current_index st') with
    | Some _ => (st', Ret true)
    | None => (st', Raise IndexError)
    end.

Definition go_to_oid (st : navigator) (o : Z) : navigator * result bool :=
  match oid_map st !! o with
  | None => (st, Ret false)
  | Some p =>
      let st' := set_index st p in
      match py_getitem (features st') (current_index st') with
      | Some _ => (st', Ret true)
      | None => (st', Raise IndexError)
      end
  end.

Definition go_to_index (st : navigator) (index : Z) : navigator * result bool :=
  if bool_decide (index < 0) || bool_decide (index >= count st) then (st, Ret false)
  else
    let st' := set_index st index in
    match py_getitem (features st') (current_index st') with
    | Some _ => (st', Ret true)
    | None => (st', Raise IndexError)
    end.

Definition get_current_info (st : navigator) : result (option feature) :=
  if py_not (features st) then Ret None
  else
    match py_getitem (features st) (current_index st) with
    | Some f => Ret (Some f)
    | None => Raise IndexError
    end.

(** [d.get(field)]: the value, or [None] when the key is missing. *)
Definition dict_get (d : gmap string pyval) (field : string) : pyval :=
  default PyNone (d !! field).

(** The loop of [filter_by_attribute] from position [i] on. *)
Fixpoint filter_from (i : Z) (fs : list feature) (field : string) (value : pyval)
  : list Z :=
  match fs with
  | [] => []
  | f :: rest =>
      if py_eq (dict_get (attributes f) field) value
      then i :: filter_from (i + 1) rest field value
      else filter_from (i + 1) rest field value
  end.

Definition filter_by_attribute (st : navigator) (field : string) (value : pyval)
  : list Z :=
  filter_from 0 (features st) field value.

Definition jump_to_filtered (st : navigator) (field : string) (value : pyval)
  : navigator * result bool :=
  match filter_by_attribute st field value with
  | first :: _ => go_to_index st first
  | [] => (st, Ret false)
  end.

(** *** The store as the specification describes it *)

(** The records a load keeps: the scanned rows that carry an identifier,
    in scan order. *)
Definition stored_rows (rows : list row) : list feature :=
  omap (fun r => o ← row_oid r; Some (feature_of o (row_shape r))) rows.

(** The index is the inverse of the record sequence: every stored record is
    indexed at its own position, and no two positions hold one identifier. *)
Definition index_inverse (st : navigator) : Prop :=
  (forall (p : nat) (f : feature),
      features st !! p = Some f -> oid_map st !! oid f = Some (Z.of_nat p)) /\
  (forall (p q : nat) (f g : feature),
      features st !! p = Some f -> features st !! q = Some g ->
      oid f = oid g -> p = q).

(** Every entry of the index points at a stored record with that
    identifier. *)
Definition index_sound (st : navigator) : Prop :=
  forall (o p : Z), oid_map st !! o = Some p ->
    0 <= p /\ exists f, features st !! Z.to_nat p = Some f /\ oid f = o.

(** The filter as the specification words it: a position is returned
    exactly when its record holds the field with the very value asked for,
    the same in type and in content. *)
Definition filter_as_specified (st : navigator) (field : string) (value : pyval)
  : Prop :=
  forall p : Z,
    p ∈ filter_by_attribute st field value <->
    0 <= p /\ exists f, features st !! Z.to_nat p = Some f /\
                       attributes f !! field = Some value.

(** The store is empty or the cursor is a position of the store. *)
Definition cursor_ok (st : navigator) : Prop :=
  features st = [] \/ 0 <= current_index st < count st.

(** *** The rest of the class *)

(** The loop of [_initialize_layer] over [self.map.listLayers()]. *)
Fixpoint first_feature_layer (layers : list layer) : option layer :=
  match layers with
  | [] => None
  | l :: rest => if isFeatureLayer l then Some l else first_feature_layer rest
  end.

(** [_initialize_layer]: a non-empty [layer_name] selects the first layer
    of that name, otherwise the first feature layer is taken; no layer
    raises [ValueError], which the handler prints and raises again.  The
    result is [self.current_layer] and the fields after [_load_features]. *)
Definition _initialize_layer (st : navigator) (layers : list layer)
    (name : option string) : result (layer * navigator) :=
  let target :=
    match name with
    | Some (String a n) =>
        head (filter (fun l => layer_name l = String a n) layers)
    | Some EmptyString | None => first_feature_layer layers
    end in
  match target with
  | Some l => Ret (l, _load_features st (dataSource l))
  | None => Raise ValueError
  end.

(** The loop of [export_to_dataframe]: [data] is the list built so far. *)
Fixpoint export_loop (fs : list feature) (data : list (gmap string pyval))
  : list (gmap string pyval) :=
  match fs with
  | [] => data
  | f :: rest =>
      export_loop rest
        (data ++ [<[ "Índice"%string := PyInt (Z.of_nat (length data)) ]>
                    (attributes f)])
  end.

(** [export_to_dataframe], up to the list of dictionaries it hands to
    [pd.DataFrame]: one dictionary per row of the frame, none for the empty
    frame. *)
Definition export_to_dataframe (st : navigator) : list (gmap string pyval) :=
  if py_not (features st) then [] else export_loop (features st) [].

(** A line [Indice i: OID oid] of [list_oids], marked or not as the
    current one. *)
Record oid_line := OidLine {
  line_index : Z;
  line_oid : Z;
  line_marked : bool
}.

(** What [list_oids] prints: the two numbers of the heading, the lines,
    and the number of the closing [... y n mas] when it is printed. *)
Record oid_listing := OidListing {
  shown : Z;
  total : Z;
  lines : list oid_line;
  more : option Z
}.

(** The loop [for i in range(...)] of [list_oids]. *)
Fixpoint list_oids_loop (st : navigator) (indices : list Z)
  : result (list oid_line) :=
  match indices with
  | [] => Ret []
  | i :: rest =>
      match py_getitem (features st) i with
      | None => Raise IndexError
      | Some f =>
          match list_oids_loop st rest with
          | Ret ls =>
              Ret (OidLine i (oid f) (bool_decide (i = current_index st)) :: ls)
          | Raise e => Raise e
          end
      end
  end.

(** [list_oids(limit)]; [None] is the message that there are no records. *)
Definition list_oids (st : navigator) (limit : Z) : result (option oid_listing) :=
  if py_not (features st) then Ret None
  else
    match list_oids_loop st (py_range (Z.min limit (count st))) with
    | Raise e => Raise e
    | Ret ls =>
        Ret (Some {| shown := Z.min limit (count st);
                     total := count st;
                     lines := ls;
                     more := if bool_decide (count st > limit)
                             then Some (count st - limit) else None |})
    end.

(** The numbers [get_statistics] prints: the total, the current record
    counted from 1, and its identifier; [None] is the message that there are
    no records. *)
Definition get_statistics (st : navigator) : result (option (Z * Z * Z)) :=
  if py_not (features st) then Ret None
  else
    match py_getitem (features st) (current_index st) with
    | Some f => Ret (Some (count st, current_index st + 1, oid f))
    | None => Raise IndexError
    end.

(** The loads of a session all scan to the end over rows with an
    identifier. *)
Definition sound_source (c : cursor) : Prop :=
  completes c = true /\ identified c.

(** A call of a method that writes the fields, as typed at the console
    after the script has run; a load is given the scan of the layer's source
    at that moment. *)
Inductive call :=
  | CallLoad (c : cursor)
  | CallNext
  | CallPrevious
  | CallGoToOid (o : Z)
  | CallGoToIndex (index : Z)
  | CallJump (field : string) (value : pyval).

(** The fields after the call, and whether an exception left it. *)
Definition do_call (st : navigator) (k : call) : navigator * bool :=
  let outcome (r : navigator * result bool) :=
    (fst r, match snd r with Ret _ => false | Raise _ => true end) in
  match k with
  | CallLoad c => (_load_features st c, false)
  | CallNext => outcome (next_feature st)
  | CallPrevious => outcome (previous_feature st)
  | CallGoToOid o => outcome (go_to_oid st o)
  | CallGoToIndex index => outcome (go_to_index st index)
  | CallJump field value => outcome (jump_to_filtered st field value)
  end.

(** A session: the calls one after the other, an exception returning to
    the prompt with the fields as the call left them.  The boolean tells
    whether some call raised. *)
Fixpoint run_calls (st : navigator) (ks : list call) : navigator * bool :=
  match ks with
  | [] => (st, false)
  | k :: rest =>
      let '(st', raised) := do_call st k in
      let '(st'', raised') := run_calls st' rest in
      (st'', raised || raised')
  end.

End FeatureNavigator.

(** ** navigateLayerArcMap.py *)

Module NavigationTool.

(** An element of [self.feature_records]: the identifier is stored as the
    cursor gave it. *)
Record record := MkRecord {
  oid : option Z;
  shape : option geometry
}.

Record tool := Tool {
  feature_records : list record;
  current_index : Z
}.

Definition count (t : tool) : Z := Z.of_nat (length (feature_records t)).

Definition set_index (t : tool) (i : Z) : tool :=
  {| feature_records := feature_records t; current_index := i |}.

(** The fields as [__init__] sets them before it loads. *)
Definition init : tool := {| feature_records := []; current_index := 0 |}.

Definition record_of (r : row) : record :=
  {| oid := row_oid r; shape := row_shape r |}.

(** The loop [for row in cursor] appending to [self.feature_records]. *)
Fixpoint scan (c : cursor) (recs : list record) : list record * bool :=
  match c with
  | EndOfRows => (recs, true)
  | ReadError => (recs, false)
  | NextRow r rest => scan rest (recs ++ [record_of r])
  end.

(** [load_features]: the list is emptied and filled by the scan; the cursor
    goes back to 0 when the scan ended and found records; the handler of the
    [try] only shows a message box. *)
Definition load_features (t : tool) (c : cursor) : tool :=
  let '(recs, finished) := scan c [] in
  if finished && negb (py_not recs)
  then {| feature_records := recs; current_index := 0 |}
  else {| feature_records := recs; current_index := current_index t |}.

(** The methods return nothing; what tells a move from the early return is
    the message box. *)
Inductive note := Panned | NoRecordsWarning.

Definition next_record (t : tool) : tool * result note :=
  if py_not (feature_records t) then (t, Ret NoRecordsWarning)
  else
    let t' :=
      if bool_decide (current_index t < count t - 1)
      then set_index t (current_index t + 1)
      else set_index t 0 in
    match py_getitem (feature_records t') (current_index t') with
    | Some _ => (t', Ret Panned)
    | None => (t', Raise IndexError)
    end.

Definition previous_record (t : tool) : tool * result note :=
  if py_not (feature_records t) then (t, Ret NoRecordsWarning)
  else
    let t' :=
      if bool_decide (current_index t > 0)
      then set_index t (current_index t - 1)
      else set_index t (count t - 1) in
    match py_getitem (feature_records t') (current_index t') with
    | Some _ => (t', Ret Panned)
    | None => (t', Raise IndexError)
    end.

(** The load went through the [try] block and found records. *)
Definition load_ok (c : cursor) : bool :=
  let '(recs, finished) := scan c [] in
  finished && negb (py_not recs).

(** *** The rest of the script *)

(** The object with the field [layer_name] beside the two above. *)
Record session := Session {
  the_tool : tool;
  tool_layer : option string
}.

(** The loop of [initialize_data] over the layers of the data frame. *)
Fixpoint first_visible_feature_layer (layers : list layer) : option layer :=
  match layers with
  | [] => None
  | l :: rest =>
      if isFeatureLayer l && visible l then Some l
      else first_visible_feature_layer rest
  end.

(** [initialize_data]: without layers, or without a visible feature layer,
    a message box is shown and nothing is written; otherwise the name of the
    first such layer is kept and its source loaded. *)
Definition initialize_data (s : session) (layers : list layer) : session :=
  match first_visible_feature_layer layers with
  | None => s
  | Some l =>
      {| the_tool := load_features (the_tool s) (dataSource l);
         tool_layer := Some (layer_name l) |}
  end.

(** [NavigationTool()]. *)
Definition new (layers : list layer) : session :=
  initialize_data {| the_tool := init; tool_layer := None |} layers.

(** [str.lower] on the letters A to Z; no other character lowers to one of
    the keys the handler tests. *)
Definition lower_ascii (a : Ascii.ascii) : Ascii.ascii :=
  let n := Ascii.nat_of_ascii a in
  if (65 <=? n)%nat && (n <=? 90)%nat then Ascii.ascii_of_nat (n + 32) else a.

Fixpoint py_lower (s : string) : string :=
  match s with
  | EmptyString => EmptyString
  | String a rest => String (lower_ascii a) (py_lower rest)
  end.

(** The method [onKeyDown]: the key is lowered and dispatched inside a
    [try] whose handler shows a message box.  The boolean tells whether the
    handler ran. *)
Definition onKeyDown (s : session) (layers : list layer) (key : string)
  : session * bool :=
  let moved (r : tool * result note) :=
    ({| the_tool := fst r; tool_layer := tool_layer s |},
     match snd r with Ret _ => false | Raise _ => true end) in
  let k := py_lower key in
  if bool_decide (k = "n"%string) then moved (next_record (the_tool s))
  else if bool_decide (k = "b"%string) then moved (previous_record (the_tool s))
  else if bool_decide (k = "r"%string) then (initialize_data s layers, false)
  else (s, false).

(** The list is empty or the cursor is one of its positions. *)
Definition cursor_ok (t : tool) : Prop :=
  feature_records t = [] \/ 0 <= current_index t < count t.

(** What reaches the tool: a key, or one of the module's functions
    [next_feature], [previous_feature] and [reload_data], which call the
    methods outside any [try].  A reload sees the layers of that moment. *)
Inductive call :=
  | Key (key : string) (layers : list layer)
  | CallNextFeature
  | CallPreviousFeature
  | CallReloadData (layers : list layer).

(** The layers a call may read. *)
Definition layers_of (k : call) : list layer :=
  match k with
  | Key _ layers | CallReloadData layers => layers
  | CallNextFeature | CallPreviousFeature => []
  end.

(** The object after the call, and whether an exception left the call. *)
Definition do_call (s : session) (k : call) : session * bool :=
  let moved (r : tool * result note) :=
    ({| the_tool := fst r; tool_layer := tool_layer s |},
     match snd r with Ret _ => false | Raise _ => true end) in
  match k with
  | Key key layers => (fst (onKeyDown s layers key), false)
  | CallNextFeature => moved (next_record (the_tool s))
  | CallPreviousFeature => moved (previous_record (the_tool s))
  | CallReloadData layers => (initialize_data s layers, false)
  end.

Fixpoint run_calls (s : session) (ks : list call) : session * bool :=
  match ks with
  | [] => (s, false)
  | k :: rest =>
      let '(s', raised) := do_call s k in
      let '(s'', raised') := run_calls s' rest in
      (s'', raised || raised')
  end.

End NavigationTool.

(** ** Sequences of calls *)

(** Calling a method [n] times in a row; a raised exception ends the
    sequence.  The list holds what each call returned. *)
Fixpoint call_n {S A : Type} (op : S -> S * result A) (n : nat) (s : S)
  : S * list (result A) :=
  match n with
  | O => (s, [])
  | Datatypes.S k =>
      match op s with
      | (s', Ret a) => let '(s'', rs) := call_n op k s' in (s'', Ret a :: rs)
      | (s', Raise e) => (s', [Raise e])
      end
  end.


(** ** Facts about the Python primitives *)

(** A full turn of a ring of [n] positions. *)
Lemma mod_full_turn (i n : Z) : 0 <= i < n -> (i + n) `mod` n = i.
Proof.
  intros Hi. replace (i + n) with (i + 1 * n) by lia.
  rewrite Z_mod_plus_full. by apply Z.mod_small.
Qed.

Lemma py_not_false_length {A : Type} (l : list A) :
  py_not l = false <-> 0 < Z.of_nat (length l).
Proof.
  destruct l as [|x l]; simpl; split; intros H; try done; lia.
Qed.

Lemma py_not_true_nil {A : Type} (l : list A) : py_not l = true <-> l = [].
Proof. destruct l; simpl; split; intros H; done. Qed.

Lemma py_getitem_nonneg {A : Type} (l : list A) (i : Z) :
  0 <= i < Z.of_nat (length l) -> py_getitem l i = l !! Z.to_nat i.
Proof.
  intros Hi. unfold py_getitem. by rewrite bool_decide_eq_true_2.
Qed.

Lemma py_getitem_in_range {A : Type} (l : list A) (i : Z) :
  0 <= i < Z.of_nat (length l) -> is_Some (py_getitem l i).
Proof.
  intros Hi. rewrite py_getitem_nonneg; [|done].
  apply lookup_lt_is_Some. lia.
Qed.

Lemma py_getitem_beyond {A : Type} (l : list A) (i : Z) :
  Z.of_nat (length l) <= i -> py_getitem l i = None.
Proof.
  intros Hi. unfold py_getitem.
  rewrite bool_decide_eq_false_2; [|lia].
  rewrite bool_decide_eq_false_2; [done|lia].
Qed.

(** Python's [==] on the modelled values: equal values, or a [bool] and an
    [int] that denote the same number. *)
Lemma py_eq_spec (a b : pyval) :
  py_eq a b = true <->
  a = b \/ (exists n, as_number a = Some n /\ as_number b = Some n).
Proof.
  split.
  - destruct a as [|[]| |], b as [|[]| |]; simpl; intros H;
      try discriminate; try (by left);
      try (apply bool_decide_eq_true_1 in H; subst; eauto).
  - intros [->|(n & Ha & Hb)].
    + destruct b as [|[]| |]; simpl; try done; by apply bool_decide_eq_true_2.
    + destruct a as [|[]| |], b as [|[]| |]; simpl in *; simplify_eq;
        try done; by apply bool_decide_eq_true_2.
Qed.

(** Between values of one type [==] is equality of the values. *)
Lemma py_eq_same_type (a b : pyval) :
  type_of a = type_of b -> (py_eq a b = true <-> a = b).
Proof.
  intros Ht. rewrite py_eq_spec. split; [|by left].
  intros [->|(n & Ha & Hb)]; [done|].
  destruct a as [|[]| |], b as [|[]| |]; simpl in *; congruence.
Qed.

(** A string never equals a number, and only [None] equals [None]. *)
Lemma py_eq_str_int (s : string) (n : Z) : py_eq (PyInt n) (PyStr s) = false.
Proof. done. Qed.

Lemma py_eq_none_l (v : pyval) : py_eq PyNone v = true <-> v = PyNone.
Proof. destruct v as [|[]| |]; simpl; split; intros H; done. Qed.

(** ** FeatureNavigator: moving the cursor *)

Section navigator_moves.
Import FeatureNavigator.

Lemma set_index_same (st : navigator) : set_index st (current_index st) = st.
Proof. by destruct st. Qed.

Lemma set_index_twice (st : navigator) (i j : Z) :
  set_index (set_index st i) j = set_index st j.
Proof. done. Qed.

Lemma count_pos (st : navigator) : py_not (features st) = false <-> 0 < count st.
Proof. apply py_not_false_length. Qed.

(** Inside the range [go_to_index] moves the cursor and returns [True]. *)
Lemma go_to_index_inside (st : navigator) (i : Z) :
  0 <= i < count st -> go_to_index st i = (set_index st i, Ret true).
Proof.
  intros Hi. unfold go_to_index.
  rewrite (bool_decide_eq_false_2 (i < 0)); [|lia].
  rewrite (bool_decide_eq_false_2 (i >= count st)); [|lia].
  simpl. destruct (py_getitem_in_range (features st) i Hi) as [f ->]. done.
Qed.

(** Outside it returns [False] and writes nothing. *)
Lemma go_to_index_outside (st : navigator) (i : Z) :
  ~ (0 <= i < count st) -> go_to_index st i = (st, Ret false).
Proof.
  intros Hi. unfold go_to_index.
  destruct (decide (i < 0)) as [Hneg|Hpos].
  - by rewrite (bool_decide_eq_true_2 (i < 0)).
  - rewrite (bool_decide_eq_false_2 (i < 0)); [|done].
    rewrite (bool_decide_eq_true_2 (i >= count st)); [done|lia].
Qed.

(** On a store with records [next_feature] adds one modulo the count. *)
Lemma next_feature_step (st : navigator) :
  py_not (features st) = false ->
  next_feature st =
    (set_index st ((current_index st + 1) `mod` count st), Ret true).
Proof.
  intros Hne. unfold next_feature. rewrite Hne. simpl.
  apply count_pos in Hne.
  assert (Hr : 0 <= (current_index st + 1) `mod` count st < count st)
    by (apply Z.mod_pos_bound; lia).
  destruct (py_getitem_in_range (features st) _ Hr) as [f ->]. done.
Qed.

Lemma previous_feature_step (st : navigator) :
  py_not (features st) = false ->
  previous_feature st =
    (set_index st ((current_index st - 1) `mod` count st), Ret true).
Proof.
  intros Hne. unfold previous_feature. rewrite Hne. simpl.
  apply count_pos in Hne.
  assert (Hr : 0 <= (current_index st - 1) `mod` count st < count st)
    by (apply Z.mod_pos_bound; lia).
  destruct (py_getitem_in_range (features st) _ Hr) as [f ->]. done.
Qed.

(** [n] calls of [next_feature] add [n] modulo the count. *)
Lemma next_feature_n (n : nat) (st : navigator) :
  py_not (features st) = false ->
  0 <= current_index st < count st ->
  call_n next_feature n st =
    (set_index st ((current_index st + Z.of_nat n) `mod` count st),
     replicate n (Ret true)).
Proof.
  revert st. induction n as [|n IH]; intros st Hne Hci.
  - simpl. rewrite Z.add_0_r, Z.mod_small by done. by rewrite set_index_same.
  - cbn [call_n]. rewrite next_feature_step by done.
    pose proof (proj1 (count_pos st) Hne) as Hpos.
    rewrite IH; [|done|simpl; apply Z.mod_pos_bound; apply Hpos].
    cbn [replicate]. f_equal.
    rewrite set_index_twice. unfold count; simpl. fold (count st).
    f_equal. rewrite Zplus_mod_idemp_l. f_equal. lia.
Qed.
End navigator_moves.

(** ** NavigationTool: moving the cursor *)

Section tool_moves.
Import NavigationTool.

Lemma tool_set_index_same (t : tool) : set_index t (current_index t) = t.
Proof. by destruct t. Qed.

(** From a position of the list, the two branches of [next_record] are the
    successor modulo the count. *)
Lemma next_record_step (t : tool) :
  py_not (feature_records t) = false ->
  0 <= current_index t < count t ->
  next_record t =
    (set_index t ((current_index t + 1) `mod` count t), Ret Panned).
Proof.
  intros Hne Hci. unfold next_record. rewrite Hne.
  destruct (decide (current_index t < count t - 1)) as [Hlt|Hlast].
  - rewrite bool_decide_eq_true_2 by done.
    rewrite (Z.mod_small (current_index t + 1)) by lia.
    assert (Hr : 0 <= current_index t + 1 < count t) by lia.
    simpl. destruct (py_getitem_in_range (feature_records t) _ Hr) as [r ->].
    done.
  - rewrite bool_decide_eq_false_2 by done.
    assert (Hlast' : current_index t + 1 = count t) by lia.
    rewrite Hlast', Z_mod_same_full.
    assert (Hr : 0 <= 0 < count t) by lia.
    simpl. destruct (py_getitem_in_range (feature_records t) _ Hr) as [r ->].
    done.
Qed.

Lemma next_record_n (n : nat) (t : tool) :
  py_not (feature_records t) = false ->
  0 <= current_index t < count t ->
  call_n next_record n t =
    (set_index t ((current_index t + Z.of_nat n) `mod` count t),
     replicate n (Ret Panned)).
Proof.
  revert t. induction n as [|n IH]; intros t Hne Hci.
  - simpl. rewrite Z.add_0_r, Z.mod_small by done.
    by rewrite tool_set_index_same.
  - cbn [call_n]. rewrite next_record_step by done.
    assert (Hpos : 0 < count t) by lia.
    rewrite IH; [|done|simpl; apply Z.mod_pos_bound; apply Hpos].
    cbn [replicate]. f_equal.
    unfold set_index, count; simpl. fold (count t).
    f_equal. rewrite Zplus_mod_idemp_l. f_equal. lia.
Qed.
End tool_moves.

(** ** The ring of [next] *)

(** C6. On a store of [N] records with the cursor at one of its positions,
    a call of next returns normally, writes [(current_index + 1) mod N] to
    the cursor and nothing else, so that the last record wraps to the first;
    [k] calls in a row leave the cursor at [(current_index + k) mod N], and
    [N] calls all succeed and bring the navigator back to the state it
    started from.  This holds for [FeatureNavigator.next_feature] and for
    [NavigationTool.next_record]. *)
Theorem next_ring_closure :
  (forall st : FeatureNavigator.navigator,
      FeatureNavigator.features st <> [] ->
      0 <= FeatureNavigator.current_index st < FeatureNavigator.count st ->
      let N := length (FeatureNavigator.features st) in
      let st' := fst (FeatureNavigator.next_feature st) in
      FeatureNavigator.next_feature st =
        (FeatureNavigator.set_index st
           ((FeatureNavigator.current_index st + 1) `mod` Z.of_nat N),
         Ret true) /\
      FeatureNavigator.current_index st' =
        (FeatureNavigator.current_index st + 1) `mod` Z.of_nat N /\
      FeatureNavigator.features st' = FeatureNavigator.features st /\
      FeatureNavigator.oid_map st' = FeatureNavigator.oid_map st /\
      (FeatureNavigator.current_index st < Z.of_nat N - 1 ->
       FeatureNavigator.current_index st' = FeatureNavigator.current_index st + 1) /\
      (FeatureNavigator.current_index st = Z.of_nat N - 1 ->
       FeatureNavigator.current_index st' = 0) /\
      (forall k : nat,
         FeatureNavigator.current_index
           (fst (call_n FeatureNavigator.next_feature k st)) =
         (FeatureNavigator.current_index st + Z.of_nat k) `mod` Z.of_nat N) /\
      call_n FeatureNavigator.next_feature N st = (st, replicate N (Ret true)))
  /\
  (forall t : NavigationTool.tool,
      NavigationTool.feature_records t <> [] ->
      0 <= NavigationTool.current_index t < NavigationTool.count t ->
      let N := length (NavigationTool.feature_records t) in
      let t' := fst (NavigationTool.next_record t) in
      NavigationTool.next_record t =
        (NavigationTool.set_index t
           ((NavigationTool.current_index t + 1) `mod` Z.of_nat N),
         Ret NavigationTool.Panned) /\
      NavigationTool.current_index t' =
        (NavigationTool.current_index t + 1) `mod` Z.of_nat N /\
      NavigationTool.feature_records t' = NavigationTool.feature_records t /\
      (NavigationTool.current_index t < Z.of_nat N - 1 ->
       NavigationTool.current_index t' = NavigationTool.current_index t + 1) /\
      (NavigationTool.current_index t = Z.of_nat N - 1 ->
       NavigationTool.current_index t' = 0) /\
      (forall k : nat,
         NavigationTool.current_index
           (fst (call_n NavigationTool.next_record k t)) =
         (NavigationTool.current_index t + Z.of_nat k) `mod` Z.of_nat N) /\
      call_n NavigationTool.next_record N t =
        (t, replicate N (Ret NavigationTool.Panned))).
Proof.
  split.
  - intros st Hne Hci N st'.
    assert (Hnot : py_not (FeatureNavigator.features st) = false).
    { destruct (FeatureNavigator.features st); done. }
    pose proof (next_feature_step st Hnot) as Hstep.
    assert (Hcalls : forall k : nat,
               call_n FeatureNavigator.next_feature k st =
               (FeatureNavigator.set_index st
                  ((FeatureNavigator.current_index st + Z.of_nat k)
                     `mod` FeatureNavigator.count st),
                replicate k (Ret true)))
      by (intros k; by apply next_feature_n).
    subst st' N. fold (FeatureNavigator.count st).
    split; [exact Hstep|]. rewrite Hstep.
    cbn [fst FeatureNavigator.set_index FeatureNavigator.current_index
         FeatureNavigator.features FeatureNavigator.oid_map].
    split; [done|]. split; [done|]. split; [done|].
    split; [intros Hlt; apply Z.mod_small; lia|].
    split.
    { intros Hlast. rewrite Hlast.
      replace (FeatureNavigator.count st - 1 + 1)
        with (FeatureNavigator.count st) by lia.
      apply Z_mod_same_full. }
    split; [intros k; by rewrite Hcalls|].
    rewrite Hcalls. f_equal.
    rewrite mod_full_turn by done. apply set_index_same.
  - intros t Hne Hci N t'.
    assert (Hnot : py_not (NavigationTool.feature_records t) = false).
    { destruct (NavigationTool.feature_records t); done. }
    pose proof (next_record_step t Hnot Hci) as Hstep.
    assert (Hcalls : forall k : nat,
               call_n NavigationTool.next_record k t =
               (NavigationTool.set_index t
                  ((NavigationTool.current_index t + Z.of_nat k)
                     `mod` NavigationTool.count t),
                replicate k (Ret NavigationTool.Panned)))
      by (intros k; by apply next_record_n).
    subst t' N. fold (NavigationTool.count t).
    split; [exact Hstep|]. rewrite Hstep.
    cbn [fst NavigationTool.set_index NavigationTool.current_index
         NavigationTool.feature_records].
    split; [done|]. split; [done|].
    split; [intros Hlt; apply Z.mod_small; lia|].
    split.
    { intros Hlast. rewrite Hlast.
      replace (NavigationTool.count t - 1 + 1)
        with (NavigationTool.count t) by lia.
      apply Z_mod_same_full. }
    split; [intros k; by rewrite Hcalls|].
    rewrite Hcalls. f_equal.
    rewrite mod_full_turn by done. apply tool_set_index_same.
Qed.

(** C6 on the store of the specification's example.  For
    [FeatureNavigator], from the first record one call of [next_feature]
    leaves the cursor at 1, two at 2, and three come back to the state at the
    start.  For [NavigationTool], loaded with the same rows and moved to the
    last record by two calls, the next call wraps the cursor to 0. *)
Lemma next_ring_closure_witness :
  (let st :=
     FeatureNavigator.new
       (cursor_of [Row (Some 10) None; Row (Some 20) None; Row (Some 30) None]) in
   FeatureNavigator.features st <> [] /\
   0 <= FeatureNavigator.current_index st < FeatureNavigator.count st /\
   FeatureNavigator.current_index st = 0 /\
   FeatureNavigator.current_index (fst (FeatureNavigator.next_feature st)) = 1 /\
   FeatureNavigator.current_index
     (fst (call_n FeatureNavigator.next_feature 2 st)) = 2 /\
   call_n FeatureNavigator.next_feature 3 st = (st, replicate 3 (Ret true)))
  /\
  (let t :=
     fst (call_n NavigationTool.next_record 2
            (NavigationTool.load_features NavigationTool.init
               (cursor_of [Row (Some 10) None; Row (Some 20) None;
                           Row (Some 30) None]))) in
   NavigationTool.feature_records t <> [] /\
   0 <= NavigationTool.current_index t < NavigationTool.count t /\
   NavigationTool.current_index t = 2 /\
   NavigationTool.current_index (fst (NavigationTool.next_record t)) = 0 /\
   call_n NavigationTool.next_record 3 t =
     (t, replicate 3 (Ret NavigationTool.Panned))).
Proof.
  split.
  - intros st.
    assert (Hne : FeatureNavigator.features st <> []) by (vm_compute; discriminate).
    assert (Hci : 0 <= FeatureNavigator.current_index st < FeatureNavigator.count st)
      by (vm_compute; split; [discriminate|reflexivity]).
    destruct (proj1 next_ring_closure st Hne Hci)
      as (_ & Hcur & _ & _ & _ & _ & Hcalls & Hring).
    split; [exact Hne|]. split; [exact Hci|]. split; [reflexivity|].
    split; [exact Hcur|]. split; [exact (Hcalls 2%nat)|exact Hring].
  - intros t.
    assert (Hne : NavigationTool.feature_records t <> []) by (vm_compute; discriminate).
    assert (Hci : 0 <= NavigationTool.current_index t < NavigationTool.count t)
      by (vm_compute; split; [discriminate|reflexivity]).
    destruct (proj2 next_ring_closure t Hne Hci)
      as (_ & _ & _ & _ & Hwrap & _ & Hring).
    split; [exact Hne|]. split; [exact Hci|]. split; [reflexivity|].
    split; [exact (Hwrap eq_refl)|exact Hring].
Defined.

(** ** Direct jumps by position *)

Section navigator_jumps.
Import FeatureNavigator.

(** C7. [go_to_index] returns [True] exactly when [0 <= index < count];
    then the cursor is [index] and the records and the index dictionary are
    untouched; otherwise it returns [False] and the navigator is as it
    was.  It never raises. *)
Theorem go_to_index_spec (st : navigator) (index : Z) :
  (snd (go_to_index st index) = Ret true <-> 0 <= index < count st) /\
  (0 <= index < count st ->
     go_to_index st index = (set_index st index, Ret true) /\
     current_index (fst (go_to_index st index)) = index) /\
  (~ (0 <= index < count st) -> go_to_index st index = (st, Ret false)).
Proof.
  split; [|split].
  - split.
    + intros Hret. destruct (decide (0 <= index < count st)) as [Hin|Hout]; [done|].
      rewrite go_to_index_outside in Hret by done. discriminate.
    + intros Hin. by rewrite go_to_index_inside.
  - intros Hin. by rewrite go_to_index_inside.
  - apply go_to_index_outside.
Qed.

(** C7 on the store of the specification's example: position 2 is reached,
    position 3 is refused. *)
Lemma go_to_index_spec_witness :
  let st :=
    new (cursor_of [Row (Some 10) None; Row (Some 20) None; Row (Some 30) None]) in
  (0 <= 2 < count st /\ current_index (fst (go_to_index st 2)) = 2) /\
  (~ (0 <= 3 < count st) /\ go_to_index st 3 = (st, Ret false)).
Proof.
  intros st.
  assert (Hin : 0 <= 2 < count st) by (vm_compute; split; [discriminate|reflexivity]).
  assert (Hout : ~ (0 <= 3 < count st)) by (vm_compute; intros [_ H]; discriminate).
  split.
  - split; [exact Hin|].
    exact (proj2 (proj1 (proj2 (go_to_index_spec st 2)) Hin)).
  - split; [exact Hout|].
    exact (proj2 (proj2 (go_to_index_spec st 3)) Hout).
Defined.
End navigator_jumps.

(** ** The attribute filter *)

Section navigator_filter.
Import FeatureNavigator.

(** Missing keys read as [None], and [None] only equals [None]. *)
Lemma dict_get_matches (d : gmap string pyval) (field : string) (value : pyval) :
  py_eq (dict_get d field) value = true <->
  match d !! field with
  | Some v => v = value \/ (exists n, as_number v = Some n /\ as_number value = Some n)
  | None => value = PyNone
  end.
Proof.
  unfold dict_get. destruct (d !! field) as [v|]; simpl.
  - apply py_eq_spec.
  - apply py_eq_none_l.
Qed.

(** The positions the loop appends, counted from its start [i]. *)
Lemma elem_of_filter_from (fs : list feature) (i : Z) (field : string)
    (value : pyval) (p : Z) :
  p ∈ filter_from i fs field value <->
  exists (k : nat) (f : feature),
    p = i + Z.of_nat k /\ fs !! k = Some f /\
    py_eq (dict_get (attributes f) field) value = true.
Proof.
  revert i. induction fs as [|f fs IH]; intros i; simpl.
  - split; [by intros ?%elem_of_nil|]. by intros (k & g & _ & ? & _).
  - destruct (py_eq (dict_get (attributes f) field) value) eqn:Hf.
    + rewrite elem_of_cons, IH. split.
      * intros [->|(k & g & -> & Hk & Hg)].
        -- exists 0%nat, f. split; [lia|done].
        -- exists (S k), g. split; [lia|done].
      * intros (k & g & -> & Hk & Hg). destruct k as [|k].
        -- left. lia.
        -- right. exists k, g. split; [lia|done].
    + rewrite IH. split.
      * intros (k & g & -> & Hk & Hg). exists (S k), g. split; [lia|done].
      * intros (k & g & -> & Hk & Hg). destruct k as [|k].
        -- simpl in Hk. injection Hk as <-. congruence.
        -- exists k, g. split; [lia|done].
Qed.

Lemma filter_from_lower (fs : list feature) (i : Z) (field : string)
    (value : pyval) (p : Z) :
  p ∈ filter_from i fs field value -> i <= p.
Proof. rewrite elem_of_filter_from. intros (k & f & -> & _). lia. Qed.

(** The loop appends positions in increasing order. *)
Lemma filter_from_sorted (fs : list feature) (i : Z) (field : string)
    (value : pyval) :
  StronglySorted Z.lt (filter_from i fs field value).
Proof.
  revert i. induction fs as [|f fs IH]; intros i; simpl.
  - constructor.
  - destruct (py_eq (dict_get (attributes f) field) value); [|apply IH].
    constructor; [apply IH|].
    apply Forall_forall. intros p Hp%filter_from_lower. lia.
Qed.

(** Every position the filter returns is a position of the store. *)
Lemma filter_by_attribute_range (st : navigator) (field : string)
    (value : pyval) (p : Z) :
  p ∈ filter_by_attribute st field value -> 0 <= p < count st.
Proof.
  unfold filter_by_attribute. rewrite elem_of_filter_from.
  intros (k & f & -> & Hk%lookup_lt_Some & _). unfold count. lia.
Qed.

(** C8, as the code has it, for values (the one asked for and the ones
    stored) that are [None], a [bool], an [int] or a [str]; floats and other
    objects are outside this statement.  [filter_by_attribute] returns
    positions in increasing store order, and a position is returned exactly
    when [attributes.get(field) == value] holds for its record: the record
    holds the field with a value equal to [value] under Python's [==] (the
    same value, or a [bool] and an [int] denoting the same number; a string
    never equals a number), or the record lacks the field and [value] is
    [None].  For any other [value] a record lacking the field is no match; no
    case raises. *)
Theorem filter_by_attribute_spec (st : navigator) (field : string) (value : pyval) :
  StronglySorted Z.lt (filter_by_attribute st field value) /\
  forall p : Z,
    p ∈ filter_by_attribute st field value <->
    0 <= p /\ exists f, features st !! Z.to_nat p = Some f /\
      match attributes f !! field with
      | Some v =>
          v = value \/
          (exists n, as_number v = Some n /\ as_number value = Some n)
      | None => value = PyNone
      end.
Proof.
  split; [apply filter_from_sorted|].
  intros p. unfold filter_by_attribute. rewrite elem_of_filter_from. split.
  - intros (k & f & -> & Hk & Hf). split; [lia|].
    exists f. rewrite Z.add_0_l, Nat2Z.id. split; [done|].
    by apply dict_get_matches.
  - intros (Hp & f & Hk & Hf). exists (Z.to_nat p), f.
    split; [lia|]. split; [done|]. by apply dict_get_matches.
Qed.

(** C8 fails as worded.  On the store loaded from one row with identifier 1,
    the filter on a field no record has, with the value [None], returns
    position 0, and the filter on ["OID"] with the value [True] returns
    position 0 although the stored value is the integer 1. *)
Lemma filter_by_attribute_not_as_specified :
  let st := new (cursor_of [Row (Some 1) None]) in
  (filter_by_attribute st "NAME" PyNone = [0] /\
   ~ filter_as_specified st "NAME" PyNone) /\
  (filter_by_attribute st "OID" (PyBool true) = [0] /\
   ~ filter_as_specified st "OID" (PyBool true)).
Proof.
  intros st. split; (split; [reflexivity|]).
  - intros H. destruct (proj1 (H 0)) as (_ & f & Hf & Hattr).
    + vm_compute. left.
    + vm_compute in Hf. injection Hf as <-. vm_compute in Hattr. discriminate.
  - intros H. destruct (proj1 (H 0)) as (_ & f & Hf & Hattr).
    + vm_compute. left.
    + vm_compute in Hf. injection Hf as <-. vm_compute in Hattr. discriminate.
Qed.
End navigator_filter.

(** ** Jumping to the first match *)

Section navigator_jump_filtered.
Import FeatureNavigator.

(** C9. [jump_to_filtered] runs the filter.  With no match it returns
    [False] and leaves the navigator as it was.  With a match it is the call
    of [go_to_index] on the first position of the result, which is the
    lowest matching position; that call succeeds and sets the cursor to
    it. *)
Theorem jump_to_filtered_spec (st : navigator) (field : string) (value : pyval) :
  (filter_by_attribute st field value = [] ->
     jump_to_filtered st field value = (st, Ret false)) /\
  (forall (first : Z) (rest : list Z),
     filter_by_attribute st field value = first :: rest ->
     jump_to_filtered st field value = go_to_index st first /\
     go_to_index st first = (set_index st first, Ret true) /\
     forall p, p ∈ filter_by_attribute st field value -> first <= p).
Proof.
  split.
  - intros Hnone. unfold jump_to_filtered. by rewrite Hnone.
  - intros first rest Hsome.
    split; [unfold jump_to_filtered; by rewrite Hsome|].
    split.
    + apply go_to_index_inside.
      apply (filter_by_attribute_range st field value).
      rewrite Hsome. left.
    + pose proof (filter_from_sorted (features st) 0 field value) as Hsorted.
      fold (filter_by_attribute st field value) in Hsorted.
      rewrite Hsome in *. intros p [->|Hp]%elem_of_cons; [lia|].
      apply StronglySorted_inv in Hsorted as [_ Hall].
      rewrite Forall_forall in Hall. specialize (Hall p Hp). lia.
Qed.

(** C9 on the store of the specification's example: the jump to
    [OID = 30] lands on position 2, the jump to [OID = 99] is refused. *)
Lemma jump_to_filtered_spec_witness :
  let st :=
    new (cursor_of [Row (Some 10) None; Row (Some 20) None; Row (Some 30) None]) in
  (filter_by_attribute st "OID" (PyInt 30) = [2] /\
   jump_to_filtered st "OID" (PyInt 30) = go_to_index st 2 /\
   go_to_index st 2 = (set_index st 2, Ret true)) /\
  (filter_by_attribute st "OID" (PyInt 99) = [] /\
   jump_to_filtered st "OID" (PyInt 99) = (st, Ret false)).
Proof.
  intros st.
  assert (Hsome : filter_by_attribute st "OID" (PyInt 30) = [2]) by reflexivity.
  assert (Hnone : filter_by_attribute st "OID" (PyInt 99) = []) by reflexivity.
  split.
  - split; [exact Hsome|].
    destruct (proj2 (jump_to_filtered_spec st "OID" (PyInt 30)) 2 [] Hsome)
      as (Hjump & Hgo & _).
    exact (conj Hjump Hgo).
  - split; [exact Hnone|].
    exact (proj1 (jump_to_filtered_spec st "OID" (PyInt 99)) Hnone).
Defined.
End navigator_jump_filtered.

(** ** Loading *)

Section navigator_load.
Import FeatureNavigator.

(** The records of a scan are the rows with an identifier, in scan order,
    added behind what the list held. *)
Lemma scan_features (c : cursor) (i : Z) (fs : list feature) (m : gmap Z Z) :
  (scan c i fs m).1.1 = fs ++ stored_rows (scanned_rows c).
Proof.
  revert i fs m. induction c as [|r rest IH|]; intros i fs m; simpl.
  - by rewrite app_nil_r.
  - unfold stored_rows. simpl. destruct (row_oid r) as [o|]; simpl.
    + rewrite IH. by rewrite <- app_assoc.
    + apply IH.
  - by rewrite app_nil_r.
Qed.

Lemma scan_finished (c : cursor) (i : Z) (fs : list feature) (m : gmap Z Z) :
  (scan c i fs m).2 = completes c.
Proof.
  revert i fs m. induction c as [|r rest IH|]; intros i fs m; simpl; try done.
  destruct (row_oid r); apply IH.
Qed.

Lemma load_ok_eq (c : cursor) :
  load_ok c = completes c && negb (py_not (stored_rows (scanned_rows c))).
Proof.
  unfold load_ok.
  pose proof (scan_features c 0 [] ∅) as Hfs.
  pose proof (scan_finished c 0 [] ∅) as Hfin.
  destruct (scan c 0 [] ∅) as [[fs m] fin]. simpl in *. by subst.
Qed.

Lemma load_ok_completes (c : cursor) : load_ok c = true -> completes c = true.
Proof. rewrite load_ok_eq. by intros [? _]%andb_true_iff. Qed.

(** After a load the list holds the records of the scan when the [try]
    block went through, and nothing otherwise. *)
Lemma load_features_eq (st : navigator) (c : cursor) :
  features (_load_features st c) =
  if load_ok c then stored_rows (scanned_rows c) else [].
Proof.
  unfold _load_features, load_ok.
  pose proof (scan_features c 0 [] ∅) as Hfs.
  destruct (scan c 0 [] ∅) as [[fs m] fin]. simpl in *. subst.
  by destruct (fin && _).
Qed.

(** The cursor after a load: 0 when the [try] block went through, the old
    value otherwise. *)
Lemma load_current_index (st : navigator) (c : cursor) :
  current_index (_load_features st c) =
  if load_ok c then 0 else current_index st.
Proof.
  unfold _load_features, load_ok.
  destruct (scan c 0 [] ∅) as [[fs m] fin]. by destruct (fin && _).
Qed.

(** The dictionary after a load is the one the scan built, whatever the
    outcome. *)
Lemma load_oid_map (st : navigator) (c : cursor) :
  oid_map (_load_features st c) = (scan c 0 [] ∅).1.2.
Proof.
  unfold _load_features.
  destruct (scan c 0 [] ∅) as [[fs m] fin]. by destruct (fin && _).
Qed.

Lemma elem_of_stored_rows (rows : list row) (f : feature) :
  f ∈ stored_rows rows <->
  exists r o, r ∈ rows /\ row_oid r = Some o /\ f = feature_of o (row_shape r).
Proof.
  unfold stored_rows. rewrite list_elem_of_omap. split.
  - intros (r & Hr & Hf). destruct (row_oid r) as [o|] eqn:Ho; simpl in Hf; [|done].
    injection Hf as <-. eauto.
  - intros (r & o & Hr & Ho & ->). exists r. split; [done|]. by rewrite Ho.
Qed.

(** Every stored record carries the one attribute ["OID"]. *)
Lemma stored_rows_attributes (rows : list row) (f : feature) :
  f ∈ stored_rows rows -> attributes f = {[ "OID"%string := PyInt (oid f) ]}.
Proof. rewrite elem_of_stored_rows. by intros (r & o & _ & _ & ->). Qed.

Lemma length_stored_rows (rows : list row) :
  length (stored_rows rows) =
  length (filter (fun r => is_Some (row_oid r)) rows).
Proof.
  induction rows as [|r rows IH]; [done|].
  unfold stored_rows in *. cbn [omap list_omap].
  destruct (row_oid r) as [o|] eqn:Ho; cbn [mbind option_bind].
  - rewrite filter_cons_True by (rewrite Ho; eauto).
    cbn [length]. by rewrite IH.
  - rewrite filter_cons_False by (rewrite Ho; by intros [? ?]). done.
Qed.
End navigator_load.

Section tool_load.
Import NavigationTool.

(** The scan appends one record per row, whatever its identifier. *)
Lemma tool_scan_records (c : cursor) (recs : list record) :
  (scan c recs).1 = recs ++ (record_of <$> scanned_rows c).
Proof.
  revert recs. induction c as [|r rest IH|]; intros recs; simpl.
  - by rewrite app_nil_r.
  - rewrite IH. by rewrite <- app_assoc.
  - by rewrite app_nil_r.
Qed.

Lemma tool_load_records (t : tool) (c : cursor) :
  feature_records (load_features t c) = record_of <$> scanned_rows c.
Proof.
  unfold load_features. pose proof (tool_scan_records c []) as Hrecs.
  destruct (scan c []) as [recs fin]. simpl in *. subst.
  by destruct (fin && _).
Qed.
End tool_load.

(** ** What a load stores *)

(** C5, as the code has it.  After a successful load of [FeatureNavigator]
    the list holds exactly the scanned rows that carry an identifier, in
    scan order, each with the attribute dictionary [{'OID': oid}], so the
    count is the number of scanned rows with an identifier.
    [NavigationTool.load_features] has no such test and no attribute
    dictionary: it stores every scanned row in scan order as the pair of its
    identifier and shape, so its count is the number of scanned rows. *)
Theorem load_stores_rows (c : cursor) :
  (forall st : FeatureNavigator.navigator,
      FeatureNavigator.load_ok c = true ->
      let st' := FeatureNavigator._load_features st c in
      FeatureNavigator.features st' =
        omap (fun r => o ← row_oid r;
                       Some (FeatureNavigator.feature_of o (row_shape r)))
             (scanned_rows c) /\
      (forall f, f ∈ FeatureNavigator.features st' ->
         FeatureNavigator.attributes f =
           {[ "OID"%string := PyInt (FeatureNavigator.oid f) ]}) /\
      FeatureNavigator.count st' =
        Z.of_nat (length (filter (fun r => is_Some (row_oid r)) (scanned_rows c))))
  /\
  (forall t : NavigationTool.tool,
      let t' := NavigationTool.load_features t c in
      NavigationTool.feature_records t' =
        NavigationTool.record_of <$> scanned_rows c /\
      NavigationTool.count t' = Z.of_nat (length (scanned_rows c))).
Proof.
  split.
  - intros st Hok st'. subst st'.
    unfold FeatureNavigator.count.
    rewrite load_features_eq, Hok.
    split; [done|]. split.
    + apply stored_rows_attributes.
    + by rewrite length_stored_rows.
  - intros t t'. subst t'. unfold NavigationTool.count.
    rewrite tool_load_records. split; [done|]. by rewrite length_fmap.
Qed.

(** C5 on a source of three rows, the first without identifier:
    [FeatureNavigator] keeps two records. *)
Lemma load_stores_rows_witness :
  let c := cursor_of [Row None None; Row (Some 5) None; Row (Some 7) None] in
  FeatureNavigator.load_ok c = true /\
  FeatureNavigator.count (FeatureNavigator._load_features FeatureNavigator.init c)
  = 2.
Proof.
  intros c.
  assert (Hok : FeatureNavigator.load_ok c = true) by reflexivity.
  split; [exact Hok|].
  destruct (proj1 (load_stores_rows c) FeatureNavigator.init Hok) as (_ & _ & Hcount).
  exact Hcount.
Defined.

(** C5 fails as worded on [NavigationTool]: the load of a source whose only
    row has no identifier goes through and stores that row, so the count is
    1 where no scanned row has an identifier. *)
Lemma tool_load_stores_null_row :
  let c := cursor_of [Row None (Some (Shape 1))] in
  let t := NavigationTool.load_features NavigationTool.init c in
  NavigationTool.load_ok c = true /\
  NavigationTool.feature_records t =
    [ {| NavigationTool.oid := None; NavigationTool.shape := Some (Shape 1) |} ] /\
  length (filter (fun r => is_Some (row_oid r)) (scanned_rows c)) = 0%nat /\
  NavigationTool.count t <>
    Z.of_nat (length (filter (fun r => is_Some (row_oid r)) (scanned_rows c))).
Proof.
  intros c t. split; [reflexivity|]. split; [reflexivity|].
  split; [reflexivity|]. vm_compute. discriminate.
Qed.

(** ** Filtering a loaded store on another field *)

Section navigator_other_field.
Import FeatureNavigator.

(** Records that only hold ["OID"] answer [None] for any other field. *)
Lemma dict_get_other_field (o : Z) (field : string) :
  field <> "OID"%string ->
  dict_get ({[ "OID"%string := PyInt o ]} : gmap string pyval) field = PyNone.
Proof.
  intros Hfield. unfold dict_get. by rewrite lookup_singleton_ne.
Qed.

Lemma filter_from_other_field (fs : list feature) (i : Z) (field : string)
    (value : pyval) :
  (forall f, f ∈ fs -> attributes f = {[ "OID"%string := PyInt (oid f) ]}) ->
  field <> "OID"%string ->
  filter_from i fs field value =
  if py_eq PyNone value then (fun k : nat => i + Z.of_nat k) <$> seq 0 (length fs)
  else [].
Proof.
  intros Hattr Hfield. revert i.
  induction fs as [|f fs IH]; intros i; cbn [filter_from length seq].
  - destruct (py_eq PyNone value); reflexivity.
  - rewrite (Hattr f) by left. rewrite dict_get_other_field by done.
    rewrite IH by (intros g Hg; apply Hattr; by right).
    destruct (py_eq PyNone value); [|done].
    rewrite fmap_cons, Z.add_0_r. f_equal.
    rewrite <- fmap_S_seq, <- list_fmap_compose.
    apply list_fmap_ext. intros _ k _. simpl. lia.
Qed.

(** C10, as the code has it.  On a store whose records come from a
    successful load, wherever the cursor stands, for every field other than
    ["OID"] and every value other than [None], [filter_by_attribute] returns
    the empty list and [jump_to_filtered] returns [False] and leaves the
    navigator as it was. *)
Theorem filter_other_field_empty (c : cursor) (st0 st : navigator)
    (field : string) (value : pyval) :
  load_ok c = true ->
  features st = features (_load_features st0 c) ->
  field <> "OID"%string ->
  value <> PyNone ->
  filter_by_attribute st field value = [] /\
  jump_to_filtered st field value = (st, Ret false).
Proof.
  intros Hok Hfs Hfield Hvalue.
  assert (Hempty : filter_by_attribute st field value = []).
  { unfold filter_by_attribute.
    rewrite filter_from_other_field; [| |done].
    - destruct (py_eq PyNone value) eqn:Heq; [|done].
      apply py_eq_none_l in Heq. done.
    - rewrite Hfs, load_features_eq, Hok. apply stored_rows_attributes. }
  split; [done|]. unfold jump_to_filtered. by rewrite Hempty.
Qed.

(** C10 on the store of the specification's example, with the cursor on
    the second record: nothing has the field ["NAME"] with value [7]. *)
Lemma filter_other_field_empty_witness :
  let c := cursor_of [Row (Some 10) None; Row (Some 20) None; Row (Some 30) None] in
  let st := fst (go_to_index (new c) 1) in
  load_ok c = true /\
  filter_by_attribute st "NAME" (PyInt 7) = [] /\
  jump_to_filtered st "NAME" (PyInt 7) = (st, Ret false).
Proof.
  intros c st.
  assert (Hok : load_ok c = true) by reflexivity.
  split; [exact Hok|].
  apply (filter_other_field_empty c init st "NAME" (PyInt 7) Hok);
    [reflexivity|discriminate|discriminate].
Defined.

(** C10 fails as worded for the value [None].  On the store loaded from the
    identifiers 5 and 7, with the cursor on the second record, no record has
    a field ["NAME"]; the filter on ["NAME"] with [None] returns both
    positions, and [jump_to_filtered] returns [True] and moves the cursor
    from 1 to 0. *)
Lemma filter_other_field_none_matches_all :
  let c := cursor_of [Row (Some 5) None; Row (Some 7) None] in
  let st := fst (go_to_index (new c) 1) in
  load_ok c = true /\
  current_index st = 1 /\
  filter_by_attribute st "NAME" PyNone = [0; 1] /\
  jump_to_filtered st "NAME" PyNone = (set_index st 0, Ret true) /\
  ~ (filter_by_attribute st "NAME" PyNone = [] /\
     jump_to_filtered st "NAME" PyNone = (st, Ret false)).
Proof.
  intros c st. split; [reflexivity|]. split; [reflexivity|].
  split; [reflexivity|]. split; [reflexivity|].
  intros [Hempty _]. vm_compute in Hempty. discriminate.
Qed.
End navigator_other_field.

(** ** The index after a load with rows without identifier *)

Section navigator_index.
Import FeatureNavigator.

(** C1 does not hold of the code.  [_load_features] writes
    [oid_map[oid] = i] with the counter of [enumerate], which also counts the
    rows it skips.  On the source [(None, 5)] the load succeeds, the record
    with identifier 5 is stored at position 0 and indexed at position 1,
    which is no position of the list. *)
Theorem index_shifted_by_null_row :
  let c := cursor_of [Row None None; Row (Some 5) None] in
  let st := new c in
  load_ok c = true /\
  features st = [feature_of 5 None] /\
  oid_map st !! 5 = Some 1 /\
  py_getitem (features st) 1 = None /\
  ~ index_inverse st.
Proof.
  intros c st. split; [reflexivity|]. split; [reflexivity|].
  split; [reflexivity|]. split; [reflexivity|].
  intros [Hpos _].
  specialize (Hpos 0%nat (feature_of 5 None) eq_refl).
  vm_compute in Hpos. discriminate.
Qed.

(** C2 does not hold of the code, by the same shifted index.  On the source
    [(None, 5, 7)] the record with identifier 5 is loaded, [go_to_oid(5)]
    returns [True], and the current record is then the one with identifier
    7.  On the source [(None, 5)] the call sets the cursor to 1 and leaves
    with [IndexError]. *)
Theorem go_to_oid_reaches_other_record :
  (let st := new (cursor_of [Row None None; Row (Some 5) None; Row (Some 7) None]) in
   feature_of 5 None ∈ features st /\
   go_to_oid st 5 = (set_index st 1, Ret true) /\
   get_current_info (set_index st 1) = Ret (Some (feature_of 7 None))) /\
  (let st := new (cursor_of [Row None None; Row (Some 5) None]) in
   feature_of 5 None ∈ features st /\
   go_to_oid st 5 = (set_index st 1, Raise IndexError)).
Proof.
  split; intros st.
  - split; [vm_compute; left|]. split; reflexivity.
  - split; [vm_compute; left|]. reflexivity.
Qed.

(** C3 does not hold of the code.  After a load that fails behind the rows
    5 and 7 the store is empty but the dictionary still holds both, so
    [go_to_oid(7)] on the empty store writes 1 to the cursor and leaves with
    [IndexError].  After the successful load of [(None, 5)] the cursor is
    valid, and [go_to_oid(5)] leaves it at 1 in a store of one record. *)
Theorem go_to_oid_breaks_cursor :
  (let st := new (failing_after [Row (Some 5) None; Row (Some 7) None]) in
   features st = [] /\
   current_index st = 0 /\
   go_to_oid st 7 = (set_index st 1, Raise IndexError) /\
   current_index (fst (go_to_oid st 7)) = 1) /\
  (let st := new (cursor_of [Row None None; Row (Some 5) None]) in
   cursor_ok st /\
   go_to_oid st 5 = (set_index st 1, Raise IndexError) /\
   count (fst (go_to_oid st 5)) = 1 /\
   ~ cursor_ok (fst (go_to_oid st 5))).
Proof.
  split; intros st.
  - repeat split; reflexivity.
  - split; [right; vm_compute; split; [discriminate|reflexivity]|].
    split; [reflexivity|]. split; [reflexivity|].
    intros [Hnil|[_ Hlt]]; [discriminate|].
    vm_compute in Hlt. discriminate.
Qed.

(** C4 does not hold of the code.  The handler of [_load_features] empties
    [self.features] and leaves [self.oid_map] as the scan built it: after a
    load that fails behind the row 5, whatever the navigator held before,
    the list is empty and the dictionary maps 5 to 0.
    [NavigationTool.load_features] resets nothing in its handler: the row
    stays in [feature_records]. *)
Theorem failed_load_keeps_entries (st : navigator) (t : NavigationTool.tool) :
  let c := failing_after [Row (Some 5) None] in
  load_ok c = false /\
  features (_load_features st c) = [] /\
  oid_map (_load_features st c) !! 5 = Some 0 /\
  NavigationTool.load_ok c = false /\
  NavigationTool.feature_records (NavigationTool.load_features t c) =
    [NavigationTool.record_of (Row (Some 5) None)].
Proof.
  intros c. repeat split; reflexivity.
Qed.
End navigator_index.

(** ** What holds of the index and the cursor *)

Section navigator_sound_sources.
Import FeatureNavigator.

(** The position a record at the end of the list is read back from. *)
Lemma lookup_snoc_length (fs : list feature) (f : feature) :
  (fs ++ [f]) !! length fs = Some f.
Proof. by rewrite lookup_app_r, Nat.sub_diag. Qed.

(** When every scanned row carries an identifier the counter of the loop is
    the length of the list, and every entry the loop writes points at the
    record it has just appended. *)
Lemma scan_index_sound (c : cursor) (i : Z) (fs : list feature) (m : gmap Z Z) :
  (forall r, r ∈ scanned_rows c -> is_Some (row_oid r)) ->
  i = Z.of_nat (length fs) ->
  (forall o p, m !! o = Some p ->
     0 <= p /\ exists f, fs !! Z.to_nat p = Some f /\ oid f = o) ->
  forall o p, (scan c i fs m).1.2 !! o = Some p ->
    0 <= p /\ exists f, (scan c i fs m).1.1 !! Z.to_nat p = Some f /\ oid f = o.
Proof.
  revert i fs m. induction c as [|r rest IH|]; intros i fs m Hrows Hi Hm; simpl;
    [done| |done].
  destruct (Hrows r) as [o' Ho']; [left|]. rewrite Ho'.
  apply IH.
  - intros r' Hr'. apply Hrows. by right.
  - rewrite length_app. simpl. lia.
  - intros o p. rewrite lookup_insert. case_decide as Hoo.
    + intros [= <-]. subst. split; [lia|].
      exists (feature_of o (row_shape r)).
      by rewrite Nat2Z.id, lookup_snoc_length.
    + intros Hold. destruct (Hm o p Hold) as (Hp & f & Hf & Hoid).
      split; [done|]. exists f. split; [|done].
      by apply lookup_app_l_Some.
Qed.

(** When moreover the identifiers are pairwise distinct, every record is
    indexed at its own position. *)
Lemma scan_index_complete (c : cursor) (i : Z) (fs : list feature) (m : gmap Z Z) :
  (forall r, r ∈ scanned_rows c -> is_Some (row_oid r)) ->
  i = Z.of_nat (length fs) ->
  NoDup (oid <$> (fs ++ stored_rows (scanned_rows c))) ->
  (forall (k : nat) f, fs !! k = Some f -> m !! oid f = Some (Z.of_nat k)) ->
  forall (k : nat) f, (scan c i fs m).1.1 !! k = Some f ->
    (scan c i fs m).1.2 !! oid f = Some (Z.of_nat k).
Proof.
  revert i fs m. induction c as [|r rest IH|]; intros i fs m Hrows Hi Hnd Hm;
    simpl; [done| |done].
  destruct (Hrows r) as [o' Ho']; [left|]. rewrite Ho'.
  assert (Hst : stored_rows (r :: scanned_rows rest) =
                feature_of o' (row_shape r) :: stored_rows (scanned_rows rest)).
  { unfold stored_rows. cbn [omap list_omap]. by rewrite Ho'. }
  cbn [scanned_rows] in Hnd. rewrite Hst, cons_middle, app_assoc in Hnd.
  apply IH; [|rewrite length_app; simpl; lia|done|].
  - intros r' Hr'. apply Hrows. by right.
  - intros k f Hk.
    rewrite fmap_app in Hnd. apply NoDup_app in Hnd as (Hnd & _ & _).
    rewrite fmap_app in Hnd. apply NoDup_app in Hnd as (_ & Hfresh & _).
    destruct (decide (k < length fs)%nat) as [Hlt|Hge].
    + rewrite lookup_app_l in Hk by done.
      rewrite lookup_insert_ne; [by apply Hm|].
      intros Heq. apply (Hfresh o').
      * apply list_elem_of_fmap. exists f. split; [done|].
        by apply list_elem_of_lookup_2 in Hk.
      * simpl. left.
    + rewrite lookup_app_r in Hk by lia.
      destruct (k - length fs)%nat as [|k'] eqn:Hk'; [|done].
      simpl in Hk. injection Hk as <-. simpl.
      rewrite lookup_insert_eq. f_equal. lia.
Qed.

(** For a source whose rows all carry an identifier, and pairwise distinct
    ones, a successful load leaves the index the exact inverse of the record
    list. *)
Lemma load_index_inverse (st : navigator) (c : cursor) :
  load_ok c = true ->
  (forall r, r ∈ scanned_rows c -> is_Some (row_oid r)) ->
  NoDup (oid <$> stored_rows (scanned_rows c)) ->
  index_inverse (_load_features st c) /\ index_sound (_load_features st c).
Proof.
  intros Hok Hrows Hnd.
  assert (Hfs : features (_load_features st c) = (scan c 0 [] ∅).1.1).
  { rewrite load_features_eq, Hok. by rewrite scan_features. }
  assert (Hcomplete : forall (p : nat) f,
             features (_load_features st c) !! p = Some f ->
             oid_map (_load_features st c) !! oid f = Some (Z.of_nat p)).
  { intros p f. rewrite Hfs, load_oid_map.
    by apply scan_index_complete. }
  split; [split|].
  - exact Hcomplete.
  - intros p q f g Hp%Hcomplete Hq%Hcomplete Hoid.
    rewrite Hoid in Hp. rewrite Hp in Hq. injection Hq. lia.
  - intros o p. rewrite Hfs, load_oid_map.
    by apply scan_index_sound.
Qed.

(** With a sound index [go_to_oid] never raises: an unknown identifier is
    refused and nothing is written, a known one moves the cursor to a record
    with that identifier. *)
Lemma go_to_oid_sound (st : navigator) (o : Z) :
  index_sound st ->
  match oid_map st !! o with
  | None => go_to_oid st o = (st, Ret false)
  | Some p =>
      go_to_oid st o = (set_index st p, Ret true) /\
      0 <= p < count st /\
      exists f, get_current_info (set_index st p) = Ret (Some f) /\ oid f = o
  end.
Proof.
  intros Hsound. unfold go_to_oid.
  destruct (oid_map st !! o) as [p|] eqn:Hlook; [|done].
  destruct (Hsound o p Hlook) as (Hp & f & Hf & Hoid).
  assert (Hrange : 0 <= p < count st).
  { apply lookup_lt_Some in Hf. unfold count. lia. }
  simpl. rewrite py_getitem_nonneg, Hf by done.
  split; [done|]. split; [done|]. exists f. split; [|done].
  unfold get_current_info. simpl.
  rewrite py_getitem_nonneg, Hf by done.
  by destruct (features st).
Qed.
End navigator_sound_sources.

Section navigator_cursor.
Import FeatureNavigator.

(** A load always leaves a valid cursor: 0 in a store with records, or an
    empty store. *)
Lemma load_cursor_ok (st : navigator) (c : cursor) :
  cursor_ok (_load_features st c).
Proof.
  unfold cursor_ok, count.
  rewrite load_features_eq, load_current_index.
  destruct (load_ok c) eqn:Hok; [|by left].
  right. rewrite load_ok_eq in Hok.
  apply andb_true_iff in Hok as [_ Hne].
  apply negb_true_iff, py_not_false_length in Hne. lia.
Qed.

(** The moves that do not read the dictionary keep the cursor valid. *)
Lemma moves_keep_cursor_ok (st : navigator) :
  cursor_ok st ->
  cursor_ok (fst (next_feature st)) /\
  cursor_ok (fst (previous_feature st)) /\
  (forall i, cursor_ok (fst (go_to_index st i))) /\
  (forall field value, cursor_ok (fst (jump_to_filtered st field value))).
Proof.
  intros Hok.
  assert (Hgo : forall i, cursor_ok (fst (go_to_index st i))).
  { intros i. destruct (decide (0 <= i < count st)) as [Hin|Hout].
    - rewrite go_to_index_inside by done. by right.
    - by rewrite go_to_index_outside. }
  destruct (py_not (features st)) eqn:Hnot.
  - apply py_not_true_nil in Hnot.
    unfold next_feature, previous_feature, jump_to_filtered, filter_by_attribute.
    rewrite Hnot. simpl. repeat split; done.
  - split; [|split; [|split]].
    + rewrite next_feature_step by done. right. simpl.
      apply Z.mod_pos_bound. by apply count_pos.
    + rewrite previous_feature_step by done. right. simpl.
      apply Z.mod_pos_bound. by apply count_pos.
    + done.
    + intros field value. unfold jump_to_filtered.
      by destruct (filter_by_attribute st field value).
Qed.

(** On an empty store these moves return [False] and write nothing. *)
Lemma moves_refused_on_empty (st : navigator) :
  features st = [] ->
  next_feature st = (st, Ret false) /\
  previous_feature st = (st, Ret false) /\
  (forall i, go_to_index st i = (st, Ret false)) /\
  (forall field value, jump_to_filtered st field value = (st, Ret false)).
Proof.
  intros Hnil.
  unfold next_feature, previous_feature, jump_to_filtered, filter_by_attribute.
  rewrite Hnil. simpl. repeat split; try done.
  intros i. apply go_to_index_outside. unfold count. rewrite Hnil. simpl. lia.
Qed.

(** [go_to_oid] keeps the cursor valid when the index is sound. *)
Lemma go_to_oid_keeps_cursor_ok (st : navigator) (o : Z) :
  index_sound st -> cursor_ok st -> cursor_ok (fst (go_to_oid st o)).
Proof.
  intros Hsound Hok. pose proof (go_to_oid_sound st o Hsound) as Hgo.
  destruct (oid_map st !! o) as [p|].
  - destruct Hgo as (-> & Hp & _). by right.
  - by rewrite Hgo.
Qed.
End navigator_cursor.

(** ** The run of the specification's example *)

Section navigator_example.
Import FeatureNavigator.

(** The identifiers 10, 20, 30 loaded in that order: the current record
    after each call, and what the call returned. *)
Example example_run :
  let st0 :=
    new (cursor_of [Row (Some 10) None; Row (Some 20) None; Row (Some 30) None]) in
  let oid_at st :=
    match get_current_info st with
    | Ret (Some f) => Some (oid f)
    | _ => None
    end in
  let st1 := fst (next_feature st0) in
  let st2 := fst (next_feature st1) in
  let st3 := fst (next_feature st2) in
  let st4 := fst (previous_feature st3) in
  let st5 := fst (go_to_oid st4 20) in
  let st6 := fst (go_to_oid st5 99) in
  oid_at <$> [st0; st1; st2; st3; st4; st5; st6] =
    Some <$> [10; 20; 30; 10; 30; 20; 20] /\
  current_index st5 = 1 /\
  snd (go_to_oid st5 99) = Ret false /\
  filter_by_attribute st6 "OID" (PyInt 30) = [2] /\
  filter_by_attribute st6 "OID" (PyStr "30") = [] /\
  jump_to_filtered st6 "OID" (PyInt 99) = (st6, Ret false) /\
  features (new EndOfRows) = [] /\
  next_feature (new EndOfRows) = (new EndOfRows, Ret false).
Proof. repeat split; reflexivity. Qed.
End navigator_example.

(** ** Going back: [previous_feature] and [previous_record] *)

Lemma mod_pred_wrap (n : Z) : 0 < n -> (0 - 1) `mod` n = n - 1.
Proof.
  intros Hn. replace (0 - 1) with (n - 1 + (-1) * n) by lia.
  rewrite Z_mod_plus_full. apply Z.mod_small. lia.
Qed.

Lemma mod_full_turn_back (i n : Z) : 0 <= i < n -> (i - n) `mod` n = i.
Proof.
  intros Hi. replace (i - n) with (i + (-1) * n) by lia.
  rewrite Z_mod_plus_full. by apply Z.mod_small.
Qed.

Section navigator_back.
Import FeatureNavigator.

Lemma previous_feature_n (n : nat) (st : navigator) :
  py_not (features st) = false ->
  0 <= current_index st < count st ->
  call_n previous_feature n st =
    (set_index st ((current_index st - Z.of_nat n) `mod` count st),
     replicate n (Ret true)).
Proof.
  revert st. induction n as [|n IH]; intros st Hne Hci.
  - simpl. rewrite Z.sub_0_r, Z.mod_small by done. by rewrite set_index_same.
  - cbn [call_n]. rewrite previous_feature_step by done.
    pose proof (proj1 (count_pos st) Hne) as Hpos.
    rewrite IH; [|done|simpl; apply Z.mod_pos_bound; apply Hpos].
    cbn [replicate]. f_equal.
    rewrite set_index_twice. unfold count; simpl. fold (count st).
    f_equal. rewrite Zminus_mod_idemp_l. f_equal. lia.
Qed.

(** With records in the store [previous_feature] undoes [next_feature] and
    [next_feature] undoes [previous_feature], the two ends included. *)
Lemma next_previous_feature (st : navigator) :
  py_not (features st) = false ->
  0 <= current_index st < count st ->
  previous_feature (fst (next_feature st)) = (st, Ret true) /\
  next_feature (fst (previous_feature st)) = (st, Ret true).
Proof.
  intros Hne Hci.
  rewrite (next_feature_step st), (previous_feature_step st) by done.
  simpl. rewrite previous_feature_step, next_feature_step by done.
  unfold count; simpl. fold (count st).
  rewrite !set_index_twice, Zminus_mod_idemp_l, Zplus_mod_idemp_l.
  replace (current_index st + 1 - 1) with (current_index st) by lia.
  replace (current_index st - 1 + 1) with (current_index st) by lia.
  rewrite Z.mod_small by done. by rewrite set_index_same.
Qed.
End navigator_back.

Section tool_back.
Import NavigationTool.

(** From a position of the list, the two branches of [previous_record] are
    the predecessor modulo the count. *)
Lemma previous_record_step (t : tool) :
  py_not (feature_records t) = false ->
  0 <= current_index t < count t ->
  previous_record t =
    (set_index t ((current_index t - 1) `mod` count t), Ret Panned).
Proof.
  intros Hne Hci. unfold previous_record. rewrite Hne.
  destruct (decide (current_index t > 0)) as [Hgt|Hfirst].
  - rewrite bool_decide_eq_true_2 by done.
    rewrite (Z.mod_small (current_index t - 1)) by lia.
    assert (Hr : 0 <= current_index t - 1 < count t) by lia.
    simpl. destruct (py_getitem_in_range (feature_records t) _ Hr) as [r ->].
    done.
  - rewrite bool_decide_eq_false_2 by done.
    assert (Hzero : current_index t = 0) by lia.
    rewrite Hzero, mod_pred_wrap by lia.
    assert (Hr : 0 <= count t - 1 < count t) by lia.
    simpl. destruct (py_getitem_in_range (feature_records t) _ Hr) as [r ->].
    done.
Qed.

Lemma previous_record_n (n : nat) (t : tool) :
  py_not (feature_records t) = false ->
  0 <= current_index t < count t ->
  call_n previous_record n t =
    (set_index t ((current_index t - Z.of_nat n) `mod` count t),
     replicate n (Ret Panned)).
Proof.
  revert t. induction n as [|n IH]; intros t Hne Hci.
  - simpl. rewrite Z.sub_0_r, Z.mod_small by done.
    by rewrite tool_set_index_same.
  - cbn [call_n]. rewrite previous_record_step by done.
    assert (Hpos : 0 < count t) by lia.
    rewrite IH; [|done|simpl; apply Z.mod_pos_bound; apply Hpos].
    cbn [replicate]. f_equal.
    unfold set_index, count; simpl. fold (count t).
    f_equal. rewrite Zminus_mod_idemp_l. f_equal. lia.
Qed.

Lemma next_previous_record (t : tool) :
  py_not (feature_records t) = false ->
  0 <= current_index t < count t ->
  previous_record (fst (next_record t)) = (t, Ret Panned) /\
  next_record (fst (previous_record t)) = (t, Ret Panned).
Proof.
  intros Hne Hci.
  rewrite (next_record_step t), (previous_record_step t) by done.
  assert (Hpos : 0 < count t) by lia.
  simpl.
  rewrite previous_record_step, next_record_step;
    [|done|simpl; by apply Z.mod_pos_bound
     |done|simpl; by apply Z.mod_pos_bound].
  unfold set_index, count; simpl. fold (count t).
  rewrite Zminus_mod_idemp_l, Zplus_mod_idemp_l.
  replace (current_index t + 1 - 1) with (current_index t) by lia.
  replace (current_index t - 1 + 1) with (current_index t) by lia.
  rewrite Z.mod_small by done. by destruct t.
Qed.
End tool_back.

(** X1. On a store of [N] records with the cursor at one of its positions,
    a call of previous returns normally, writes [(current_index - 1) mod N]
    to the cursor and nothing else, so that the first record wraps to the
    last, and [N] calls in a row all succeed and bring the navigator back to
    the state it started from; for [FeatureNavigator.previous_feature] and
    for [NavigationTool.previous_record]. *)
Theorem previous_ring_closure :
  (forall st : FeatureNavigator.navigator,
      FeatureNavigator.features st <> [] ->
      0 <= FeatureNavigator.current_index st < FeatureNavigator.count st ->
      let N := length (FeatureNavigator.features st) in
      let st' := fst (FeatureNavigator.previous_feature st) in
      FeatureNavigator.previous_feature st =
        (FeatureNavigator.set_index st
           ((FeatureNavigator.current_index st - 1) `mod` Z.of_nat N),
         Ret true) /\
      FeatureNavigator.current_index st' =
        (FeatureNavigator.current_index st - 1) `mod` Z.of_nat N /\
      FeatureNavigator.features st' = FeatureNavigator.features st /\
      FeatureNavigator.oid_map st' = FeatureNavigator.oid_map st /\
      (0 < FeatureNavigator.current_index st ->
       FeatureNavigator.current_index st' = FeatureNavigator.current_index st - 1) /\
      (FeatureNavigator.current_index st = 0 ->
       FeatureNavigator.current_index st' = Z.of_nat N - 1) /\
      call_n FeatureNavigator.previous_feature N st =
        (st, replicate N (Ret true)))
  /\
  (forall t : NavigationTool.tool,
      NavigationTool.feature_records t <> [] ->
      0 <= NavigationTool.current_index t < NavigationTool.count t ->
      let N := length (NavigationTool.feature_records t) in
      let t' := fst (NavigationTool.previous_record t) in
      NavigationTool.previous_record t =
        (NavigationTool.set_index t
           ((NavigationTool.current_index t - 1) `mod` Z.of_nat N),
         Ret NavigationTool.Panned) /\
      NavigationTool.current_index t' =
        (NavigationTool.current_index t - 1) `mod` Z.of_nat N /\
      NavigationTool.feature_records t' = NavigationTool.feature_records t /\
      (0 < NavigationTool.current_index t ->
       NavigationTool.current_index t' = NavigationTool.current_index t - 1) /\
      (NavigationTool.current_index t = 0 ->
       NavigationTool.current_index t' = Z.of_nat N - 1) /\
      call_n NavigationTool.previous_record N t =
        (t, replicate N (Ret NavigationTool.Panned))).
Proof.
  split.
  - intros st Hne Hci N st'.
    assert (Hnot : py_not (FeatureNavigator.features st) = false).
    { destruct (FeatureNavigator.features st); done. }
    pose proof (previous_feature_step st Hnot) as Hstep.
    subst st' N. fold (FeatureNavigator.count st).
    split; [exact Hstep|]. rewrite Hstep.
    cbn [fst FeatureNavigator.set_index FeatureNavigator.current_index
         FeatureNavigator.features FeatureNavigator.oid_map].
    split; [done|]. split; [done|]. split; [done|].
    split; [intros Hpos; apply Z.mod_small; lia|].
    split; [intros Hzero; rewrite Hzero; apply mod_pred_wrap; lia|].
    rewrite previous_feature_n by done. f_equal.
    rewrite mod_full_turn_back by done. apply set_index_same.
  - intros t Hne Hci N t'.
    assert (Hnot : py_not (NavigationTool.feature_records t) = false).
    { destruct (NavigationTool.feature_records t); done. }
    pose proof (previous_record_step t Hnot Hci) as Hstep.
    subst t' N. fold (NavigationTool.count t).
    split; [exact Hstep|]. rewrite Hstep.
    cbn [fst NavigationTool.set_index NavigationTool.current_index
         NavigationTool.feature_records].
    split; [done|]. split; [done|].
    split; [intros Hpos; apply Z.mod_small; lia|].
    split; [intros Hzero; rewrite Hzero; apply mod_pred_wrap; lia|].
    rewrite previous_record_n by done. f_equal.
    rewrite mod_full_turn_back by done. apply tool_set_index_same.
Qed.

(** X1 on three records: from the first one [previous_feature] wraps to the
    last and three calls come back; [previous_record], from the first of
    three records, wraps to the last as well. *)
Lemma previous_ring_closure_witness :
  (let st :=
     FeatureNavigator.new
       (cursor_of [Row (Some 10) None; Row (Some 20) None; Row (Some 30) None]) in
   FeatureNavigator.features st <> [] /\
   0 <= FeatureNavigator.current_index st < FeatureNavigator.count st /\
   FeatureNavigator.current_index (fst (FeatureNavigator.previous_feature st)) = 2 /\
   call_n FeatureNavigator.previous_feature 3 st = (st, replicate 3 (Ret true)))
  /\
  (let t :=
     NavigationTool.load_features NavigationTool.init
       (cursor_of [Row (Some 10) None; Row (Some 20) None; Row (Some 30) None]) in
   NavigationTool.feature_records t <> [] /\
   0 <= NavigationTool.current_index t < NavigationTool.count t /\
   NavigationTool.current_index (fst (NavigationTool.previous_record t)) = 2 /\
   call_n NavigationTool.previous_record 3 t =
     (t, replicate 3 (Ret NavigationTool.Panned))).
Proof.
  split.
  - intros st.
    assert (Hne : FeatureNavigator.features st <> []) by (vm_compute; discriminate).
    assert (Hci : 0 <= FeatureNavigator.current_index st < FeatureNavigator.count st)
      by (vm_compute; split; [discriminate|reflexivity]).
    split; [exact Hne|]. split; [exact Hci|].
    destruct (proj1 previous_ring_closure st Hne Hci)
      as (_ & Hcur & _ & _ & _ & _ & Hring).
    split; [exact Hcur|exact Hring].
  - intros t.
    assert (Hne : NavigationTool.feature_records t <> []) by (vm_compute; discriminate).
    assert (Hci : 0 <= NavigationTool.current_index t < NavigationTool.count t)
      by (vm_compute; split; [discriminate|reflexivity]).
    split; [exact Hne|]. split; [exact Hci|].
    destruct (proj2 previous_ring_closure t Hne Hci)
      as (_ & _ & _ & _ & Hwrap & Hring).
    split; [exact (Hwrap eq_refl)|exact Hring].
Defined.

(** X2. With the cursor at a position of a store with records, next then
    previous, and previous then next, both succeed and give back the very
    state they started from, also across the wrap between the last and the
    first record; for both scripts. *)
Theorem next_previous_inverse :
  (forall st : FeatureNavigator.navigator,
      FeatureNavigator.features st <> [] ->
      0 <= FeatureNavigator.current_index st < FeatureNavigator.count st ->
      FeatureNavigator.previous_feature (fst (FeatureNavigator.next_feature st))
        = (st, Ret true) /\
      FeatureNavigator.next_feature (fst (FeatureNavigator.previous_feature st))
        = (st, Ret true))
  /\
  (forall t : NavigationTool.tool,
      NavigationTool.feature_records t <> [] ->
      0 <= NavigationTool.current_index t < NavigationTool.count t ->
      NavigationTool.previous_record (fst (NavigationTool.next_record t))
        = (t, Ret NavigationTool.Panned) /\
      NavigationTool.next_record (fst (NavigationTool.previous_record t))
        = (t, Ret NavigationTool.Panned)).
Proof.
  split.
  - intros st Hne Hci. apply next_previous_feature; [|done].
    destruct (FeatureNavigator.features st); done.
  - intros t Hne Hci. apply next_previous_record; [|done].
    destruct (NavigationTool.feature_records t); done.
Qed.

(** X2 on a tool of two records with the cursor on the last. *)
Lemma next_previous_inverse_witness :
  let t :=
    NavigationTool.set_index
      (NavigationTool.load_features NavigationTool.init
         (cursor_of [Row (Some 1) None; Row (Some 2) None])) 1 in
  NavigationTool.feature_records t <> [] /\
  0 <= NavigationTool.current_index t < NavigationTool.count t /\
  NavigationTool.current_index (fst (NavigationTool.next_record t)) = 0 /\
  NavigationTool.previous_record (fst (NavigationTool.next_record t))
    = (t, Ret NavigationTool.Panned).
Proof.
  intros t.
  assert (Hne : NavigationTool.feature_records t <> []) by (vm_compute; discriminate).
  assert (Hci : 0 <= NavigationTool.current_index t < NavigationTool.count t)
    by (vm_compute; split; [discriminate|reflexivity]).
  split; [exact Hne|]. split; [exact Hci|]. split; [reflexivity|].
  exact (proj1 (proj2 next_previous_inverse t Hne Hci)).
Defined.

(** ** What the index holds after a load *)

Section navigator_index_contents.
Import FeatureNavigator.

(** The dictionary of a scan started at counter [i] over [m]: an identifier
    of the scan is mapped to the counter of its last row, any other keeps the
    entry of [m]. *)
Lemma scan_index_lookup (c : cursor) (i : Z) (fs : list feature)
    (m : gmap Z Z) (o p : Z) :
  (scan c i fs m).1.2 !! o = Some p <->
  (exists (k : nat) r,
      p = i + Z.of_nat k /\ scanned_rows c !! k = Some r /\
      row_oid r = Some o /\
      forall (k' : nat) r', (k < k')%nat ->
        scanned_rows c !! k' = Some r' -> row_oid r' <> Some o)
  \/ (m !! o = Some p /\
      forall (k : nat) r, scanned_rows c !! k = Some r -> row_oid r <> Some o).
Proof.
  revert i fs m. induction c as [|r0 rest IH|]; intros i fs m; simpl.
  - split; [intros Hm; right; split; [done|]; by intros k r ?|].
    intros [(k & r & _ & Hk & _)|[Hm _]]; done.
  - destruct (row_oid r0) as [o0|] eqn:Ho0; rewrite IH; clear IH; split.
    + intros [(k & r & -> & Hk & Hr & Hlater)|[Hm Hnone]].
      * left. exists (S k), r. split; [lia|]. split; [done|]. split; [done|].
        intros [|k'] r' Hlt Hk'; [lia|]. apply (Hlater k' r'); [lia|done].
      * rewrite lookup_insert in Hm. case_decide as Heq.
        -- injection Hm as <-. subst o0. left. exists 0%nat, r0.
           split; [lia|]. split; [done|]. split; [done|].
           intros [|k'] r' Hlt Hk'; [lia|]. by apply (Hnone k' r').
        -- right. split; [done|]. intros [|k] r Hk.
           ++ injection Hk as <-. rewrite Ho0. congruence.
           ++ by apply (Hnone k r).
    + intros [(k & r & -> & Hk & Hr & Hlater)|[Hm Hnone]].
      * destruct k as [|k].
        -- injection Hk as <-. right. split.
           ++ rewrite Ho0 in Hr. injection Hr as ->.
              rewrite lookup_insert_eq. f_equal. lia.
           ++ intros k r Hk. apply (Hlater (S k) r); [lia|done].
        -- left. exists k, r. split; [lia|]. split; [done|]. split; [done|].
           intros k' r' Hlt Hk'. apply (Hlater (S k') r'); [lia|done].
      * right. split.
        -- rewrite lookup_insert_ne; [done|]. intros ->.
           by apply (Hnone 0%nat r0).
        -- intros k r Hk. by apply (Hnone (S k) r).
    + intros [(k & r & -> & Hk & Hr & Hlater)|[Hm Hnone]].
      * left. exists (S k), r. split; [lia|]. split; [done|]. split; [done|].
        intros [|k'] r' Hlt Hk'; [lia|]. apply (Hlater k' r'); [lia|done].
      * right. split; [done|]. intros [|k] r Hk.
        -- injection Hk as <-. rewrite Ho0. congruence.
        -- by apply (Hnone k r).
    + intros [(k & r & -> & Hk & Hr & Hlater)|[Hm Hnone]].
      * destruct k as [|k].
        -- injection Hk as <-. congruence.
        -- left. exists k, r. split; [lia|]. split; [done|]. split; [done|].
           intros k' r' Hlt Hk'. apply (Hlater (S k') r'); [lia|done].
      * right. split; [done|]. intros k r Hk. by apply (Hnone (S k) r).
  - split; [intros Hm; right; split; [done|]; by intros k r ?|].
    intros [(k & r & _ & Hk & _)|[Hm _]]; done.
Qed.

Lemma load_index_lookup (st : navigator) (c : cursor) (o p : Z) :
  oid_map (_load_features st c) !! o = Some p <->
  exists (k : nat) r,
    p = Z.of_nat k /\ scanned_rows c !! k = Some r /\ row_oid r = Some o /\
    forall (k' : nat) r', (k < k')%nat ->
      scanned_rows c !! k' = Some r' -> row_oid r' <> Some o.
Proof.
  rewrite load_oid_map, scan_index_lookup. split.
  - intros [(k & r & -> & H)|[Hm _]]; [|done]. exists k, r. split; [lia|done].
  - intros (k & r & -> & H). left. exists k, r. split; [lia|done].
Qed.

(** X3. After any load, finished or failed, [oid_map] maps an identifier
    to [p] exactly when [p] is the scan position, every scanned row counted,
    of the last row that carries this identifier.  So the entries are scan
    positions, not positions in [features], and of two rows with one
    identifier the later one is indexed. *)
Theorem load_index_scan_positions (st : navigator) (c : cursor) (o p : Z) :
  oid_map (_load_features st c) !! o = Some p <->
  exists (k : nat) r,
    p = Z.of_nat k /\ scanned_rows c !! k = Some r /\ row_oid r = Some o /\
    forall (k' : nat) r', (k < k')%nat ->
      scanned_rows c !! k' = Some r' -> row_oid r' <> Some o.
Proof. apply load_index_lookup. Qed.

(** X4. An identifier that no scanned row carries is refused: whatever
    state the navigator was loaded over and wherever the cursor has moved
    since, [go_to_oid] returns [False] and writes nothing. *)
Theorem go_to_oid_unknown (st0 st : navigator) (c : cursor) (o : Z) :
  oid_map st = oid_map (_load_features st0 c) ->
  (forall r, r ∈ scanned_rows c -> row_oid r <> Some o) ->
  go_to_oid st o = (st, Ret false).
Proof.
  intros Hmap Hnone. unfold go_to_oid.
  destruct (oid_map st !! o) as [p|] eqn:Hlook; [|done].
  rewrite Hmap in Hlook.
  apply load_index_lookup in Hlook as (k & r & _ & Hk & Hr & _).
  destruct (Hnone r); [|done]. by apply list_elem_of_lookup_2 in Hk.
Qed.

(** X4 on a source with a row without identifier: 99 is refused. *)
Lemma go_to_oid_unknown_witness :
  let c := cursor_of [Row None None; Row (Some 5) None; Row (Some 7) None] in
  let st := fst (next_feature (new c)) in
  go_to_oid st 99 = (st, Ret false).
Proof.
  intros c st. apply (go_to_oid_unknown init st c 99); [reflexivity|].
  intros r Hr. vm_compute in Hr.
  repeat (apply elem_of_cons in Hr as [->|Hr]; [simpl; congruence|]).
  by apply elem_of_nil in Hr.
Defined.

Lemma identified_row_oids (rows : list row) :
  (forall r, r ∈ rows -> is_Some (row_oid r)) ->
  Some <$> (oid <$> stored_rows rows) = row_oid <$> rows.
Proof.
  induction rows as [|r rows IH]; intros Hrows; [done|].
  destruct (Hrows r) as [o Ho]; [left|].
  unfold stored_rows in *. cbn [omap list_omap]. rewrite Ho.
  cbn [mbind option_bind]. rewrite !fmap_cons, Ho. simpl. f_equal.
  apply IH. intros r' Hr'. apply Hrows. by right.
Qed.

(** X5. When every scanned row carries an identifier and no two rows share
    one, a successful load makes every stored record reachable by its
    identifier: wherever the cursor stands, [go_to_oid] on the identifier of
    the record at position [k] returns [True], leaves the cursor at [k], and
    [get_current_info] then returns that record. *)
Theorem go_to_oid_reaches_record (st0 st : navigator) (c : cursor)
    (k : nat) (f : feature) :
  load_ok c = true ->
  identified c ->
  NoDup (row_oid <$> scanned_rows c) ->
  features st = features (_load_features st0 c) ->
  oid_map st = oid_map (_load_features st0 c) ->
  features st !! k = Some f ->
  go_to_oid st (oid f) = (set_index st (Z.of_nat k), Ret true) /\
  get_current_info (set_index st (Z.of_nat k)) = Ret (Some f).
Proof.
  intros Hok Hid Hnd Hfs Hmap Hk.
  assert (Hnd' : NoDup (oid <$> stored_rows (scanned_rows c))).
  { apply (NoDup_fmap_1 Some). by rewrite identified_row_oids. }
  destruct (load_index_inverse st0 c Hok Hid Hnd') as [[Hpos _] _].
  rewrite <- Hfs, <- Hmap in Hpos. specialize (Hpos k f Hk).
  assert (Hrange : 0 <= Z.of_nat k < count st).
  { apply lookup_lt_Some in Hk. unfold count. lia. }
  assert (Hget : py_getitem (features st) (Z.of_nat k) = Some f).
  { rewrite py_getitem_nonneg by done. by rewrite Nat2Z.id. }
  split.
  - unfold go_to_oid. rewrite Hpos. simpl. by rewrite Hget.
  - unfold get_current_info. simpl. rewrite Hget.
    destruct (features st); [by rewrite lookup_nil in Hk|done].
Qed.

(** X5 on the identifiers 10, 20, 30 with the cursor moved on: the jump to
    30 lands on position 2. *)
Lemma go_to_oid_reaches_record_witness :
  let c := cursor_of [Row (Some 10) None; Row (Some 20) None; Row (Some 30) None] in
  let st := fst (next_feature (new c)) in
  go_to_oid st 30 = (set_index st 2, Ret true) /\
  get_current_info (set_index st 2) = Ret (Some (feature_of 30 None)).
Proof.
  intros c st.
  apply (go_to_oid_reaches_record init st c 2 (feature_of 30 None));
    try reflexivity.
  - intros r Hr. vm_compute in Hr.
    repeat (apply elem_of_cons in Hr as [->|Hr]; [by eexists|]).
    by apply elem_of_nil in Hr.
  - apply (bool_decide_unpack (NoDup (row_oid <$> scanned_rows c))).
    vm_compute. exact I.
Defined.
End navigator_index_contents.

(** ** Sessions of calls on [FeatureNavigator] *)

Section navigator_sessions.
Import FeatureNavigator.

(** Every move returns the navigator it was given, up to the cursor. *)
Lemma moves_only_write_cursor (st : navigator) :
  (exists i, fst (next_feature st) = set_index st i) /\
  (exists i, fst (previous_feature st) = set_index st i) /\
  (forall o, exists i, fst (go_to_oid st o) = set_index st i) /\
  (forall index, exists i, fst (go_to_index st index) = set_index st i) /\
  (forall field value, exists i,
      fst (jump_to_filtered st field value) = set_index st i).
Proof.
  assert (Hsame : exists i, st = set_index st i).
  { exists (current_index st). by rewrite set_index_same. }
  assert (Hgo : forall index, exists i, fst (go_to_index st index) = set_index st i).
  { intros index. unfold go_to_index.
    destruct (_ || _); [done|]. simpl.
    destruct (py_getitem _ _); by eexists. }
  split; [|split; [|split; [|split]]].
  - unfold next_feature. destruct (py_not _); [done|]. simpl.
    destruct (py_getitem _ _); by eexists.
  - unfold previous_feature. destruct (py_not _); [done|]. simpl.
    destruct (py_getitem _ _); by eexists.
  - intros o. unfold go_to_oid. destruct (oid_map st !! o); [|done]. simpl.
    destruct (py_getitem _ _); by eexists.
  - done.
  - intros field value. unfold jump_to_filtered.
    destruct (filter_by_attribute st field value); [done|apply Hgo].
Qed.

Lemma do_call_keeps_store (st : navigator) (k : call) :
  (forall c, k <> CallLoad c) ->
  features (fst (do_call st k)) = features st /\
  oid_map (fst (do_call st k)) = oid_map st.
Proof.
  intros Hmove.
  destruct (moves_only_write_cursor st) as (Hn & Hp & Ho & Hi & Hj).
  destruct k as [c| | |o|index|field value]; simpl.
  - by destruct (Hmove c).
  - destruct Hn as [i ->]. done.
  - destruct Hp as [i ->]. done.
  - destruct (Ho o) as [i ->]. done.
  - destruct (Hi index) as [i ->]. done.
  - destruct (Hj field value) as [i ->]. done.
Qed.

(** X6. The records and the index dictionary are written by loading only:
    a session of moves, whatever they are and whether or not they raise,
    ends with the [features] and the [oid_map] it started with. *)
Theorem navigation_keeps_store (st : navigator) (ks : list call) :
  (forall c, CallLoad c ∉ ks) ->
  features (fst (run_calls st ks)) = features st /\
  oid_map (fst (run_calls st ks)) = oid_map st.
Proof.
  revert st. induction ks as [|k ks IH]; intros st Hmoves; [done|].
  cbn [run_calls].
  destruct (do_call_keeps_store st k) as [Hfs Hmap].
  { intros c ->. apply (Hmoves c). left. }
  destruct (do_call st k) as [st' raised]. simpl in Hfs, Hmap.
  destruct (IH st') as [Hfs' Hmap'].
  { intros c Hc. apply (Hmoves c). by right. }
  destruct (run_calls st' ks) as [st'' raised']. simpl in *.
  split; congruence.
Qed.

(** X6 on a session that jumps around a store of two records, one jump
    raising. *)
Lemma navigation_keeps_store_witness :
  let st := new (cursor_of [Row None None; Row (Some 5) None; Row (Some 7) None]) in
  let ks := [CallNext; CallGoToOid 7; CallPrevious; CallGoToIndex 1;
             CallJump "OID" (PyInt 7)] in
  snd (run_calls st ks) = true /\
  features (fst (run_calls st ks)) = features st /\
  oid_map (fst (run_calls st ks)) = oid_map st.
Proof.
  intros st ks. split; [reflexivity|].
  apply (navigation_keeps_store st ks).
  intros c Hc. vm_compute in Hc.
  repeat (apply elem_of_cons in Hc as [Hc|Hc]; [discriminate|]).
  by apply elem_of_nil in Hc.
Defined.

Lemma index_sound_ext (st st' : navigator) :
  features st' = features st -> oid_map st' = oid_map st ->
  index_sound st -> index_sound st'.
Proof. unfold index_sound. intros -> ->. done. Qed.

Lemma stored_rows_lookup (rows : list row) (k : nat) (r : row) (o : Z) :
  (forall r', r' ∈ rows -> is_Some (row_oid r')) ->
  rows !! k = Some r -> row_oid r = Some o ->
  stored_rows rows !! k = Some (feature_of o (row_shape r)).
Proof.
  revert k. induction rows as [|r0 rows IH]; intros k Hrows Hk Ho; [done|].
  destruct (Hrows r0) as [o0 Ho0]; [left|].
  unfold stored_rows in *. cbn [omap list_omap]. rewrite Ho0.
  cbn [mbind option_bind]. destruct k as [|k].
  - injection Hk as ->. rewrite Ho in Ho0. by injection Ho0 as ->.
  - simpl. apply IH; [|done|done]. intros r' Hr'. apply Hrows. by right.
Qed.

(** A load over a source that scans to the end, every row with an
    identifier, leaves a sound index. *)
Lemma load_index_sound (st : navigator) (c : cursor) :
  sound_source c -> index_sound (_load_features st c).
Proof.
  intros [Hfin Hid] o p Hlook.
  apply load_index_lookup in Hlook as (k & r & -> & Hk & Hr & _).
  pose proof (stored_rows_lookup _ k r o Hid Hk Hr) as Hf.
  split; [lia|]. exists (feature_of o (row_shape r)). split; [|done].
  rewrite Nat2Z.id, load_features_eq, load_ok_eq, Hfin.
  by destruct (stored_rows (scanned_rows c)).
Qed.

Lemma do_call_sound (st : navigator) (k : call) :
  cursor_ok st -> index_sound st ->
  (forall c, k = CallLoad c -> sound_source c) ->
  snd (do_call st k) = false /\
  cursor_ok (fst (do_call st k)) /\
  index_sound (fst (do_call st k)).
Proof.
  intros Hcur Hidx Hload.
  destruct (moves_keep_cursor_ok st Hcur) as (Hn & Hp & Hi & Hj).
  assert (Hkeep : (forall c, k <> CallLoad c) -> index_sound (fst (do_call st k))).
  { intros Hmove. destruct (do_call_keeps_store st k Hmove) as [Hfs Hmap].
    by apply (index_sound_ext st). }
  destruct k as [c| | |o|index|field value];
    (split; [|split; [|try (apply Hkeep; intros c'; discriminate)]]); simpl;
    try done.
  - apply load_cursor_ok.
  - apply load_index_sound. by apply Hload.
  - destruct (py_not (features st)) eqn:Hne.
    + unfold next_feature. by rewrite Hne.
    + by rewrite next_feature_step.
  - destruct (py_not (features st)) eqn:Hne.
    + unfold previous_feature. by rewrite Hne.
    + by rewrite previous_feature_step.
  - pose proof (go_to_oid_sound st o Hidx) as Hgo.
    destruct (oid_map st !! o); [by destruct Hgo as [-> _]|by rewrite Hgo].
  - by apply go_to_oid_keeps_cursor_ok.
  - destruct (decide (0 <= index < count st)).
    + by rewrite go_to_index_inside.
    + by rewrite go_to_index_outside.
  - unfold jump_to_filtered.
    destruct (filter_by_attribute st field value) as [|first rest]; [done|].
    destruct (decide (0 <= first < count st)).
    + by rewrite go_to_index_inside.
    + by rewrite go_to_index_outside.
Qed.

(** X7. Started from a navigator with a valid cursor and a sound index (as
    [__init__] sets the fields), a session whose loads all scan to the end
    over rows with an identifier never raises, whatever identifiers,
    positions and filters its calls are given, and ends with a valid cursor
    and a sound index. *)
Theorem calls_keep_navigator_sound (st : navigator) (ks : list call) :
  cursor_ok st -> index_sound st ->
  (forall c, CallLoad c ∈ ks -> sound_source c) ->
  snd (run_calls st ks) = false /\
  cursor_ok (fst (run_calls st ks)) /\
  index_sound (fst (run_calls st ks)).
Proof.
  revert st. induction ks as [|k ks IH]; intros st Hcur Hidx Hloads; [done|].
  cbn [run_calls].
  destruct (do_call_sound st k Hcur Hidx) as (Hr & Hcur' & Hidx').
  { intros c ->. apply Hloads. left. }
  destruct (do_call st k) as [st' raised]. simpl in Hr, Hcur', Hidx'. subst.
  destruct (IH st' Hcur' Hidx') as (Hr' & Hcur'' & Hidx'').
  { intros c Hc. apply Hloads. by right. }
  destruct (run_calls st' ks) as [st'' raised']. simpl in *. by subst.
Qed.

(** X7 on a session from the fields of [__init__]: a load of 5 and 7, moves,
    an unknown identifier, a position out of range, and a reload of an
    empty source. *)
Lemma calls_keep_navigator_sound_witness :
  let ks := [CallLoad (cursor_of [Row (Some 5) None; Row (Some 7) None]);
             CallPrevious; CallGoToOid 5; CallGoToOid 6; CallGoToIndex 2;
             CallLoad EndOfRows; CallNext] in
  cursor_ok init /\ index_sound init /\
  snd (run_calls init ks) = false /\
  cursor_ok (fst (run_calls init ks)).
Proof.
  intros ks.
  assert (Hcur : cursor_ok init) by (by left).
  assert (Hidx : index_sound init) by (intros o p Hlook; done).
  split; [exact Hcur|]. split; [exact Hidx|].
  refine (let H := calls_keep_navigator_sound init ks Hcur Hidx _ in
          conj (proj1 H) (proj1 (proj2 H))).
  intros c Hc. subst ks.
  repeat (apply elem_of_cons in Hc as [Hc|Hc];
          [first [discriminate
                 |injection Hc as ->; split; [reflexivity|]; intros r Hr;
                  simpl in Hr]|]).
  - repeat (apply elem_of_cons in Hr as [->|Hr]; [by eexists|]).
    by apply elem_of_nil in Hr.
  - by apply elem_of_nil in Hr.
  - by apply elem_of_nil in Hc.
Defined.
End navigator_sessions.

(** ** Reading the current record *)

Section navigator_reads.
Import FeatureNavigator.

(** X8. [get_current_info] and [get_statistics] agree with the cursor: on
    an empty store both report that there is nothing; with the cursor at a
    position of the store both return, the first the record there and the
    second the count, the position counted from 1 and the record's
    identifier; with the cursor at or beyond the count both leave with
    [IndexError]. *)
Theorem current_record_reports (st : navigator) :
  (features st = [] ->
     get_current_info st = Ret None /\ get_statistics st = Ret None) /\
  (0 <= current_index st < count st ->
     exists f, features st !! Z.to_nat (current_index st) = Some f /\
       get_current_info st = Ret (Some f) /\
       get_statistics st =
         Ret (Some (count st, current_index st + 1, oid f))) /\
  (features st <> [] -> count st <= current_index st ->
     get_current_info st = Raise IndexError /\
     get_statistics st = Raise IndexError).
Proof.
  unfold get_current_info, get_statistics. split; [|split].
  - by intros ->.
  - intros Hci.
    destruct (py_getitem_in_range (features st) _ Hci) as [f Hf].
    exists f. rewrite Hf. rewrite py_getitem_nonneg in Hf by done.
    split; [done|].
    assert (Hne : py_not (features st) = false) by (apply count_pos; lia).
    by rewrite Hne.
  - intros Hne Hci. rewrite py_getitem_beyond by done.
    by destruct (features st).
Qed.

(** X8 on the store of 10, 20, 30 after two moves forward. *)
Lemma current_record_reports_witness :
  let st :=
    fst (call_n next_feature 2
           (new (cursor_of [Row (Some 10) None; Row (Some 20) None;
                            Row (Some 30) None]))) in
  0 <= current_index st < count st /\
  exists f, get_current_info st = Ret (Some f) /\
            get_statistics st = Ret (Some (3, 3, oid f)).
Proof.
  intros st.
  assert (Hci : 0 <= current_index st < count st)
    by (vm_compute; split; [discriminate|reflexivity]).
  split; [exact Hci|].
  destruct (proj1 (proj2 (current_record_reports st)) Hci) as (f & _ & Hinfo & Hstat).
  exists f. split; [exact Hinfo|exact Hstat].
Defined.

(** X9. After any load, over whatever the navigator held, [get_current_info]
    returns without raising: the first scanned row that carries an
    identifier, as a record, when the load went through, and [None] when it
    failed or found no such row. *)
Theorem current_after_load (st : navigator) (c : cursor) :
  get_current_info (_load_features st c) =
  Ret (if load_ok c
       then head (omap (fun r => o ← row_oid r;
                                 Some (feature_of o (row_shape r)))
                       (scanned_rows c))
       else None).
Proof.
  unfold get_current_info.
  rewrite load_features_eq, load_current_index.
  destruct (load_ok c) eqn:Hok; [|done].
  rewrite load_ok_eq in Hok. apply andb_true_iff in Hok as [_ Hne].
  fold (stored_rows (scanned_rows c)).
  by destruct (stored_rows (scanned_rows c)).
Qed.
End navigator_reads.

(** ** Exporting and listing *)

Section navigator_export.
Import FeatureNavigator.

Lemma export_loop_eq (fs : list feature) (data : list (gmap string pyval)) :
  export_loop fs data =
  data ++ imap (fun k f =>
                  <[ "Índice"%string := PyInt (Z.of_nat (length data + k)) ]>
                    (attributes f)) fs.
Proof.
  revert data. induction fs as [|f fs IH]; intros data; simpl.
  - by rewrite app_nil_r.
  - rewrite IH, <- app_assoc. simpl. rewrite Nat.add_0_r. do 2 f_equal.
    apply imap_ext. intros k g _. simpl.
    rewrite length_app. simpl. do 3 f_equal. lia.
Qed.

(** X10. [export_to_dataframe] hands [pd.DataFrame] one dictionary per
    stored record, in store order: the dictionary of the record at position
    [k] has [k] under the key [Indice] and, under every other key, what the
    record's attributes have. *)
Theorem export_to_dataframe_rows (st : navigator) :
  length (export_to_dataframe st) = length (features st) /\
  forall (k : nat) (f : feature),
    features st !! k = Some f ->
    exists row,
      export_to_dataframe st !! k = Some row /\
      row !! "Índice"%string = Some (PyInt (Z.of_nat k)) /\
      forall field, field <> "Índice"%string ->
        row !! field = attributes f !! field.
Proof.
  assert (Heq : export_to_dataframe st =
                imap (fun k f => <[ "Índice"%string := PyInt (Z.of_nat k) ]>
                                   (attributes f)) (features st)).
  { unfold export_to_dataframe. destruct (features st) as [|f fs] eqn:Hfs; [done|].
    cbn [py_not]. by rewrite export_loop_eq. }
  rewrite Heq. split; [by rewrite length_imap|].
  intros k f Hk. eexists. split.
  - rewrite list_lookup_imap, Hk. reflexivity.
  - split; [by rewrite lookup_insert_eq|].
    intros field Hfield. by rewrite lookup_insert_ne.
Qed.

(** X10 on the record with identifier 7 at position 1. *)
Lemma export_to_dataframe_rows_witness :
  let st := new (cursor_of [Row (Some 5) None; Row (Some 7) None]) in
  exists row,
    export_to_dataframe st !! 1%nat = Some row /\
    row !! "Índice"%string = Some (PyInt 1) /\
    row !! "OID"%string = Some (PyInt 7).
Proof.
  intros st.
  destruct (proj2 (export_to_dataframe_rows st) 1%nat (feature_of 7 None) eq_refl)
    as (row & Hrow & Hk & Hother).
  exists row. split; [exact Hrow|]. split; [exact Hk|].
  rewrite (Hother "OID"%string); [reflexivity|discriminate].
Defined.

Lemma list_oids_loop_lines (st : navigator) (indices : list Z) :
  Forall (fun i => 0 <= i < count st) indices ->
  exists ls,
    list_oids_loop st indices = Ret ls /\
    length ls = length indices /\
    forall (j : nat) (i : Z), indices !! j = Some i ->
      exists f, features st !! Z.to_nat i = Some f /\
        ls !! j = Some (OidLine i (oid f) (bool_decide (i = current_index st))).
Proof.
  induction indices as [|i indices IH]; intros Hall.
  - exists []. by repeat split.
  - apply Forall_cons in Hall as [Hi Hall].
    destruct (IH Hall) as (ls & Hloop & Hlen & Hlines).
    destruct (py_getitem_in_range (features st) i Hi) as [f Hf].
    cbn [list_oids_loop]. rewrite Hf, Hloop.
    eexists. split; [done|]. split; [simpl; by rewrite Hlen|].
    intros [|j] i' Hj.
    + injection Hj as <-. exists f.
      by rewrite py_getitem_nonneg in Hf.
    + by apply Hlines.
Qed.

(** X11. On a store with records [list_oids(limit)] never raises.  It
    prints [min(limit, count)] and the count in the heading, then one line
    for each of the first [min(limit, count)] positions (none when that
    number is negative), in store order, with the record's identifier, the
    mark on the line of the current position only; the closing line is
    printed exactly when the count exceeds [limit], with the number
    [count - limit]. *)
Theorem list_oids_lines (st : navigator) (limit : Z) :
  features st <> [] ->
  exists ls,
    list_oids st limit =
      Ret (Some {| shown := Z.min limit (count st);
                   total := count st;
                   lines := ls;
                   more := if bool_decide (count st > limit)
                           then Some (count st - limit) else None |}) /\
    length ls = Z.to_nat (Z.min limit (count st)) /\
    forall (k : nat) (f : feature),
      (k < length ls)%nat -> features st !! k = Some f ->
      ls !! k =
        Some (OidLine (Z.of_nat k) (oid f)
                (bool_decide (Z.of_nat k = current_index st))).
Proof.
  intros Hne. unfold list_oids.
  assert (Hnot : py_not (features st) = false) by (by destruct (features st)).
  rewrite Hnot.
  destruct (list_oids_loop_lines st (py_range (Z.min limit (count st))))
    as (ls & Hloop & Hlen & Hlines).
  { unfold py_range. apply Forall_fmap, Forall_forall.
    intros k Hk%elem_of_seq. simpl. lia. }
  rewrite Hloop. exists ls. split; [done|].
  unfold py_range in Hlen, Hlines. rewrite length_fmap, length_seq in Hlen.
  split; [done|].
  intros k f Hk Hf.
  destruct (Hlines k (Z.of_nat k)) as (g & Hg & Hline).
  { rewrite list_lookup_fmap, lookup_seq_lt by lia. done. }
  rewrite Nat2Z.id, Hf in Hg. by injection Hg as <-.
Qed.

(** X11 on three records with the cursor on the second and a limit of 2. *)
Lemma list_oids_lines_witness :
  let st :=
    fst (next_feature
           (new (cursor_of [Row (Some 10) None; Row (Some 20) None;
                            Row (Some 30) None]))) in
  features st <> [] /\
  exists ls,
    list_oids st 2 =
      Ret (Some {| shown := 2; total := 3; lines := ls; more := Some 1 |}) /\
    length ls = 2%nat /\
    ls !! 1%nat = Some (OidLine 1 20 true).
Proof.
  intros st.
  assert (Hne : features st <> []) by (vm_compute; discriminate).
  split; [exact Hne|].
  destruct (list_oids_lines st 2 Hne) as (ls & Hlist & Hlen & Hlines).
  exists ls. split; [exact Hlist|]. split; [exact Hlen|].
  apply (Hlines 1%nat (feature_of 20 None)); [|reflexivity].
  rewrite Hlen. vm_compute. lia.
Defined.
End navigator_export.

(** ** Choosing the layer *)

Section navigator_layer.
Import FeatureNavigator.

Lemma first_feature_layer_split (before after : list layer) (l : layer) :
  Forall (fun x => isFeatureLayer x = false) before ->
  isFeatureLayer l = true ->
  first_feature_layer (before ++ l :: after) = Some l.
Proof.
  intros Hbefore Hl. induction Hbefore as [|x before Hx _ IH]; simpl.
  - by rewrite Hl.
  - by rewrite Hx.
Qed.

Lemma first_feature_layer_none (layers : list layer) :
  Forall (fun x => isFeatureLayer x = false) layers ->
  first_feature_layer layers = None.
Proof.
  intros Hall. induction Hall as [|x layers Hx _ IH]; simpl; [done|].
  by rewrite Hx.
Qed.

Lemma head_filter_name_split (before after : list layer) (l : layer) (n : string) :
  Forall (fun x => layer_name x <> n) before ->
  layer_name l = n ->
  head (filter (fun x => layer_name x = n) (before ++ l :: after)) = Some l.
Proof.
  intros Hbefore Hl. induction Hbefore as [|x before Hx _ IH]; simpl.
  - by rewrite filter_cons_True.
  - by rewrite filter_cons_False.
Qed.

Lemma head_filter_name_none (layers : list layer) (n : string) :
  Forall (fun x => layer_name x <> n) layers ->
  head (filter (fun x => layer_name x = n) layers) = None.
Proof.
  intros Hall. induction Hall as [|x layers Hx _ IH]; simpl; [done|].
  by rewrite filter_cons_False.
Qed.

(** X12. [_initialize_layer] without a name, or with the empty name, takes
    the first layer of the map that is a feature layer, visible or not; with
    a name it takes the first layer of that name, feature layer or not.  It
    then loads that layer's source and returns normally, also when the load
    finds nothing.  With no such layer it raises [ValueError]. *)
Theorem initialize_layer_selects (st : navigator) (layers : list layer) :
  (forall name before l after,
      name = None \/ name = Some ""%string ->
      layers = before ++ l :: after ->
      Forall (fun x => isFeatureLayer x = false) before ->
      isFeatureLayer l = true ->
      _initialize_layer st layers name =
        Ret (l, _load_features st (dataSource l))) /\
  (forall n before l after,
      n <> ""%string ->
      layers = before ++ l :: after ->
      Forall (fun x => layer_name x <> n) before ->
      layer_name l = n ->
      _initialize_layer st layers (Some n) =
        Ret (l, _load_features st (dataSource l))) /\
  (forall name,
      name = None \/ name = Some ""%string ->
      Forall (fun x => isFeatureLayer x = false) layers ->
      _initialize_layer st layers name = Raise ValueError) /\
  (forall n,
      n <> ""%string ->
      Forall (fun x => layer_name x <> n) layers ->
      _initialize_layer st layers (Some n) = Raise ValueError).
Proof.
  unfold _initialize_layer. split; [|split; [|split]].
  - intros name before l after [-> | ->] -> Hbefore Hl;
      by rewrite first_feature_layer_split.
  - intros [|a n] before l after Hn -> Hbefore Hl; [done|].
    by rewrite head_filter_name_split.
  - intros name [-> | ->] Hall; by rewrite first_feature_layer_none.
  - intros [|a n] Hn Hall; [done|]. by rewrite head_filter_name_none.
Qed.

(** X12 on a map of a raster layer, a hidden feature layer and a visible
    one: without a name the hidden feature layer is taken; by its name the
    raster layer is taken, and its load fails inside the constructor. *)
Lemma initialize_layer_selects_witness :
  let raster := Layer "ortho" false true ReadError in
  let hidden := Layer "parcels" true false (cursor_of [Row (Some 1) None]) in
  let shown := Layer "roads" true true (cursor_of [Row (Some 2) None]) in
  _initialize_layer init [raster; hidden; shown] None =
    Ret (hidden, new (cursor_of [Row (Some 1) None])) /\
  _initialize_layer init [raster; hidden; shown] (Some "ortho"%string) =
    Ret (raster, new ReadError).
Proof.
  intros raster hidden shown.
  destruct (initialize_layer_selects init [raster; hidden; shown])
    as (Hdefault & Hnamed & _ & _).
  split.
  - apply (Hdefault None [raster] hidden [shown]); [by left|reflexivity| |reflexivity].
    by repeat constructor.
  - apply (Hnamed "ortho"%string [] raster [hidden; shown]);
      [discriminate|reflexivity|constructor|reflexivity].
Defined.
End navigator_layer.

Section tool_layer_choice.
Import NavigationTool.

Lemma first_visible_feature_layer_split (before after : list layer) (l : layer) :
  Forall (fun x => isFeatureLayer x && visible x = false) before ->
  isFeatureLayer l && visible l = true ->
  first_visible_feature_layer (before ++ l :: after) = Some l.
Proof.
  intros Hbefore Hl. induction Hbefore as [|x before Hx _ IH]; simpl.
  - by rewrite Hl.
  - by rewrite Hx.
Qed.

Lemma first_visible_feature_layer_none (layers : list layer) :
  Forall (fun x => isFeatureLayer x && visible x = false) layers ->
  first_visible_feature_layer layers = None.
Proof.
  intros Hall. induction Hall as [|x layers Hx _ IH]; simpl; [done|].
  by rewrite Hx.
Qed.

(** X13. [initialize_data] takes the first layer that is a feature layer
    and visible: it keeps that layer's name and loads its source into the
    tool.  Without such a layer, and so also without any layer, it leaves
    the object as it was, the records and the cursor of an earlier load
    included. *)
Theorem initialize_data_selects (s : session) (layers : list layer) :
  (forall before l after,
      layers = before ++ l :: after ->
      Forall (fun x => isFeatureLayer x && visible x = false) before ->
      isFeatureLayer l && visible l = true ->
      initialize_data s layers =
        {| the_tool := load_features (the_tool s) (dataSource l);
           tool_layer := Some (layer_name l) |}) /\
  (Forall (fun x => isFeatureLayer x && visible x = false) layers ->
   initialize_data s layers = s).
Proof.
  unfold initialize_data. split.
  - intros before l after -> Hbefore Hl.
    by rewrite first_visible_feature_layer_split.
  - intros Hall. by rewrite first_visible_feature_layer_none.
Qed.

(** X13 on a map of a hidden feature layer and a visible one: the visible
    one is loaded. *)
Lemma initialize_data_selects_witness :
  let hidden := Layer "parcels" true false (cursor_of [Row (Some 1) None]) in
  let shown := Layer "roads" true true (cursor_of [Row (Some 2) None]) in
  tool_layer (new [hidden; shown]) = Some "roads"%string /\
  oid <$> feature_records (the_tool (new [hidden; shown])) = [Some 2].
Proof.
  intros hidden shown. unfold new.
  rewrite (proj1 (initialize_data_selects _ [hidden; shown]) [hidden] shown []);
    [split; reflexivity|reflexivity| |reflexivity].
  by repeat constructor.
Defined.
End tool_layer_choice.

(** ** NavigationTool: stale cursors and sessions *)

Section tool_sessions.
Import NavigationTool.

(** X14. [load_features] resets the cursor only when its scan reaches the
    end with records, so a reload that fails can leave the cursor beyond a
    shorter list.  On a list with records
    and from any cursor that is not negative: [next_record] never raises and
    lands on a position of the list; [previous_record] does so as long as
    the cursor is at most the count; from beyond the count it lowers the
    cursor by one and leaves with [IndexError]. *)
Theorem tool_moves_from_stale_cursor (t : tool) :
  feature_records t <> [] ->
  0 <= current_index t ->
  (exists i, next_record t = (set_index t i, Ret Panned) /\ 0 <= i < count t /\
             current_index (fst (next_record t)) = i) /\
  (current_index t <= count t ->
     exists i, previous_record t = (set_index t i, Ret Panned) /\
               0 <= i < count t /\
               current_index (fst (previous_record t)) = i) /\
  (count t < current_index t ->
     previous_record t = (set_index t (current_index t - 1), Raise IndexError) /\
     snd (previous_record t) = Raise IndexError /\
     current_index (fst (previous_record t)) = current_index t - 1).
Proof.
  intros Hne Hci.
  assert (Hnot : py_not (feature_records t) = false)
    by (by destruct (feature_records t)).
  assert (Hpos : 0 < count t) by (by apply py_not_false_length).
  unfold next_record, previous_record. rewrite Hnot.
  split; [|split].
  - destruct (decide (current_index t < count t - 1)) as [Hlt|Hge].
    + rewrite bool_decide_eq_true_2 by done.
      assert (Hr : 0 <= current_index t + 1 < count t) by lia.
      simpl. destruct (py_getitem_in_range (feature_records t) _ Hr) as [r ->].
      by eexists.
    + rewrite bool_decide_eq_false_2 by done.
      assert (Hr : 0 <= 0 < count t) by lia.
      simpl. destruct (py_getitem_in_range (feature_records t) _ Hr) as [r ->].
      by eexists.
  - intros Hle. destruct (decide (current_index t > 0)) as [Hgt|Hzero].
    + rewrite bool_decide_eq_true_2 by done.
      assert (Hr : 0 <= current_index t - 1 < count t) by lia.
      simpl. destruct (py_getitem_in_range (feature_records t) _ Hr) as [r ->].
      by eexists.
    + rewrite bool_decide_eq_false_2 by done.
      assert (Hr : 0 <= count t - 1 < count t) by lia.
      simpl. destruct (py_getitem_in_range (feature_records t) _ Hr) as [r ->].
      by eexists.
  - intros Hbeyond. rewrite bool_decide_eq_true_2 by lia.
    simpl. rewrite py_getitem_beyond; [done|]. fold (count t). lia.
Qed.

(** X14 after a reload that fails behind its first row while the cursor
    stood on the third of three records: the cursor is still 2 over a list
    of one record; [previous_record] lowers it to 1 and raises, and
    [next_record] brings it back to 0. *)
Lemma tool_moves_from_stale_cursor_witness :
  let t0 :=
    fst (call_n next_record 2
           (load_features init
              (cursor_of [Row (Some 1) None; Row (Some 2) None;
                          Row (Some 3) None]))) in
  let t := load_features t0 (failing_after [Row (Some 1) None]) in
  feature_records t <> [] /\ 0 <= current_index t /\
  count t < current_index t /\
  snd (previous_record t) = Raise IndexError /\
  current_index (fst (previous_record t)) = 1 /\
  current_index (fst (next_record t)) = 0.
Proof.
  intros t0 t.
  assert (Hne : feature_records t <> []) by (vm_compute; discriminate).
  assert (Hci : 0 <= current_index t) by (vm_compute; discriminate).
  assert (Hbeyond : count t < current_index t) by reflexivity.
  split; [exact Hne|]. split; [exact Hci|]. split; [exact Hbeyond|].
  destruct (tool_moves_from_stale_cursor t Hne Hci)
    as ((i & _ & Hrange & Hnext) & _ & Hprev).
  destruct (Hprev Hbeyond) as (_ & Hraise & Hcur).
  split; [exact Hraise|]. split; [exact Hcur|].
  assert (Hcount : count t = 1) by reflexivity.
  rewrite Hnext. rewrite Hcount in Hrange. lia.
Defined.

Lemma tool_scan_finished (c : cursor) (recs : list record) :
  (scan c recs).2 = completes c.
Proof.
  revert recs. induction c as [|r rest IH|]; intros recs; simpl; try done.
Qed.

Lemma load_features_cursor_ok (t : tool) (c : cursor) :
  completes c = true -> cursor_ok (load_features t c).
Proof.
  intros Hfin. unfold load_features, cursor_ok, count.
  pose proof (tool_scan_finished c []) as Hscan.
  destruct (scan c []) as [recs fin]. simpl in Hscan. subst fin. rewrite Hfin.
  destruct recs as [|r recs]; simpl; [by left|right; lia].
Qed.

Lemma load_features_nonneg (t : tool) (c : cursor) :
  0 <= current_index t -> 0 <= current_index (load_features t c).
Proof.
  intros Hci. unfold load_features.
  destruct (scan c []) as [recs fin]. by destruct (fin && _).
Qed.

Lemma moves_nonneg (t : tool) :
  0 <= current_index t ->
  0 <= current_index (fst (next_record t)) /\
  0 <= current_index (fst (previous_record t)).
Proof.
  intros Hci. unfold next_record, previous_record.
  destruct (feature_records t) as [|r recs] eqn:Hrecs; [done|]. cbn [py_not].
  split.
  - case_bool_decide; simpl; destruct (py_getitem _ _); simpl; lia.
  - case_bool_decide; simpl; destruct (py_getitem _ _); simpl;
      unfold count; rewrite ?Hrecs; simpl; lia.
Qed.

Lemma moves_keep_tool_ok (t : tool) :
  cursor_ok t ->
  (exists n, snd (next_record t) = Ret n) /\ cursor_ok (fst (next_record t)) /\
  (exists n, snd (previous_record t) = Ret n) /\
  cursor_ok (fst (previous_record t)).
Proof.
  intros [Hnil|Hci].
  - unfold next_record, previous_record, cursor_ok. rewrite Hnil. simpl.
    repeat split; eauto.
  - assert (Hnot : py_not (feature_records t) = false)
      by (apply py_not_false_length; fold (count t); lia).
    assert (Hpos : 0 < count t) by lia.
    rewrite next_record_step, previous_record_step by done. simpl.
    repeat split; eauto; right; simpl; by apply Z.mod_pos_bound.
Qed.

Lemma initialize_data_keeps (s : session) (layers : list layer) :
  (0 <= current_index (the_tool s) ->
   0 <= current_index (the_tool (initialize_data s layers))) /\
  (cursor_ok (the_tool s) ->
   (forall l, l ∈ layers -> completes (dataSource l) = true) ->
   cursor_ok (the_tool (initialize_data s layers))).
Proof.
  unfold initialize_data.
  assert (Hin : forall l, first_visible_feature_layer layers = Some l -> l ∈ layers).
  { induction layers as [|x layers IH]; intros l; simpl; [done|].
    destruct (_ && _); [intros [= ->]; left|intros H; right; by apply IH]. }
  destruct (first_visible_feature_layer layers) as [l|]; [|done]. simpl.
  split; [apply load_features_nonneg|].
  intros _ Hfin. apply load_features_cursor_ok, Hfin. by apply Hin.
Qed.

Lemma tool_do_call_keeps (s : session) (k : call) :
  (0 <= current_index (the_tool s) ->
   0 <= current_index (the_tool (fst (do_call s k)))) /\
  (cursor_ok (the_tool s) ->
   (forall l, l ∈ layers_of k -> completes (dataSource l) = true) ->
   snd (do_call s k) = false /\ cursor_ok (the_tool (fst (do_call s k)))).
Proof.
  destruct (initialize_data_keeps s (layers_of k)) as [Hinit_nonneg Hinit_ok].
  split.
  - intros Hci. destruct (moves_nonneg _ Hci) as [Hn Hp].
    destruct k as [key layers| | |layers]; simpl; try done; [|by apply Hinit_nonneg].
    unfold onKeyDown. repeat case_bool_decide; simpl; try done.
    by apply Hinit_nonneg.
  - intros Hok Hfin.
    destruct (moves_keep_tool_ok _ Hok) as ([n Hn] & Hnok & [p Hp] & Hpok).
    destruct k as [key layers| | |layers]; simpl.
    + split; [done|]. unfold onKeyDown.
      repeat case_bool_decide; simpl; try done. by apply Hinit_ok.
    + by rewrite Hn.
    + by rewrite Hp.
    + split; [done|by apply Hinit_ok].
Qed.

(** X15. In a session of keys and of calls of the module's functions the
    cursor of the tool never becomes negative.  When moreover the source of
    every layer the session reads scans to its end, no call raises and the
    list stays empty or the cursor one of its positions. *)
Theorem tool_sessions_keep_cursor (s : session) (ks : list call) :
  (0 <= current_index (the_tool s) ->
   0 <= current_index (the_tool (fst (run_calls s ks)))) /\
  (cursor_ok (the_tool s) ->
   (forall k l, k ∈ ks -> l ∈ layers_of k -> completes (dataSource l) = true) ->
   snd (run_calls s ks) = false /\
   cursor_ok (the_tool (fst (run_calls s ks)))).
Proof.
  revert s. induction ks as [|k ks IH]; intros s; [done|].
  cbn [run_calls].
  destruct (tool_do_call_keeps s k) as [Hnonneg Hok].
  destruct (do_call s k) as [s' raised]. simpl in Hnonneg, Hok.
  destruct (IH s') as [Hnonneg' Hok'].
  destruct (run_calls s' ks) as [s'' raised']. simpl in *.
  split; [by auto|].
  intros Hcur Hfin.
  destruct Hok as [-> Hcur']; [done|intros l Hl; apply (Hfin k); [left|done]|].
  apply Hok'; [done|]. intros k' l Hk' Hl. apply (Hfin k'); [by right|done].
Qed.

(** X15 on a session over one layer of two records: keys in both cases, a
    reload and the module's functions. *)
Lemma tool_sessions_keep_cursor_witness :
  let roads := Layer "roads" true true (cursor_of [Row (Some 1) None; Row (Some 2) None]) in
  let s := new [roads] in
  let ks := [Key "N" []; Key "n" []; CallPreviousFeature; Key "r" [roads];
             Key "B" []; CallNextFeature; CallReloadData [];  Key "x" []] in
  cursor_ok (the_tool s) /\
  snd (run_calls s ks) = false /\
  cursor_ok (the_tool (fst (run_calls s ks))).
Proof.
  intros roads s ks.
  assert (Hcur : cursor_ok (the_tool s))
    by (right; vm_compute; split; [discriminate|reflexivity]).
  split; [exact Hcur|].
  apply (proj2 (tool_sessions_keep_cursor s ks) Hcur).
  intros k l Hk Hl. subst ks.
  repeat (apply elem_of_cons in Hk as [->|Hk];
          [simpl in Hl;
           first [by apply elem_of_nil in Hl
                 |apply elem_of_cons in Hl as [->|Hl];
                  [reflexivity|by apply elem_of_nil in Hl]]|]).
  by apply elem_of_nil in Hk.
Defined.
End tool_sessions.

(** ** Reaching a record through the filter, and after a failed load *)

Section navigator_filter_jump.
Import FeatureNavigator.

Lemma matches_oid (g : feature) (o : Z) :
  attributes g = {[ "OID"%string := PyInt (oid g) ]} ->
  py_eq (dict_get (attributes g) "OID") (PyInt o) = true <-> oid g = o.
Proof.
  intros ->. unfold dict_get. rewrite lookup_singleton_eq. simpl.
  apply bool_decide_eq_true.
Qed.

(** X16. On a store that a successful load has filled, whatever the source
    (rows without identifier and repeated identifiers included) and wherever
    the cursor stands, [jump_to_filtered("OID", oid)] with the identifier of
    a stored record returns [True] and leaves the cursor on the first
    position that holds this identifier. *)
Theorem jump_to_filtered_by_oid (st0 st : navigator) (c : cursor)
    (k : nat) (f : feature) :
  load_ok c = true ->
  features st = features (_load_features st0 c) ->
  features st !! k = Some f ->
  (forall (j : nat) g, (j < k)%nat -> features st !! j = Some g -> oid g <> oid f) ->
  jump_to_filtered st "OID" (PyInt (oid f)) = (set_index st (Z.of_nat k), Ret true) /\
  current_index (fst (jump_to_filtered st "OID" (PyInt (oid f)))) = Z.of_nat k /\
  get_current_info (fst (jump_to_filtered st "OID" (PyInt (oid f)))) = Ret (Some f).
Proof.
  intros Hok Hfs Hk Hfirst.
  assert (Hrange : 0 <= Z.of_nat k < count st).
  { apply lookup_lt_Some in Hk. unfold count. lia. }
  assert (Hinfo : get_current_info (set_index st (Z.of_nat k)) = Ret (Some f)).
  { unfold get_current_info. cbn [set_index features current_index].
    rewrite py_getitem_nonneg, Nat2Z.id, Hk by done.
    destruct (features st); [by rewrite lookup_nil in Hk|done]. }
  enough (Hjump : jump_to_filtered st "OID" (PyInt (oid f)) =
                  (set_index st (Z.of_nat k), Ret true))
    by (rewrite Hjump; split; [done|]; split; [done|exact Hinfo]).
  assert (Hattr : forall g, g ∈ features st ->
            attributes g = {[ "OID"%string := PyInt (oid g) ]}).
  { rewrite Hfs, load_features_eq, Hok. apply stored_rows_attributes. }
  assert (Hin : Z.of_nat k ∈ filter_by_attribute st "OID" (PyInt (oid f))).
  { apply elem_of_filter_from. exists k, f. split; [lia|]. split; [done|].
    apply matches_oid; [|done]. apply Hattr. by apply list_elem_of_lookup_2 in Hk. }
  pose proof (filter_from_sorted (features st) 0 "OID" (PyInt (oid f))) as Hsorted.
  unfold jump_to_filtered. unfold filter_by_attribute in *.
  destruct (filter_from 0 (features st) "OID" (PyInt (oid f)))
    as [|first rest] eqn:Hfilter; [by apply elem_of_nil in Hin|].
  assert (Hhead : first ∈ filter_from 0 (features st) "OID" (PyInt (oid f)))
    by (rewrite Hfilter; left).
  apply elem_of_filter_from in Hhead as (j & g & -> & Hj & Hg).
  apply matches_oid in Hg; [|apply Hattr; by apply list_elem_of_lookup_2 in Hj].
  assert (Hle : 0 + Z.of_nat j <= Z.of_nat k).
  { apply elem_of_cons in Hin as [->|Hin]; [lia|].
    apply StronglySorted_inv in Hsorted as [_ Hall].
    rewrite Forall_forall in Hall. specialize (Hall _ Hin). lia. }
  assert (j = k) as ->.
  { destruct (decide (j < k)%nat) as [Hlt|]; [|lia].
    by destruct (Hfirst j g Hlt Hj). }
  rewrite Z.add_0_l. apply go_to_index_inside.
  apply lookup_lt_Some in Hk. unfold count. lia.
Qed.

(** X16 on the source [(None, 5, 7)], where [go_to_oid(5)] lands on the
    record 7: the jump through the filter lands on the record 5. *)
Lemma jump_to_filtered_by_oid_witness :
  let c := cursor_of [Row None None; Row (Some 5) None; Row (Some 7) None] in
  let st := fst (next_feature (new c)) in
  jump_to_filtered st "OID" (PyInt 5) = (set_index st 0, Ret true) /\
  get_current_info (set_index st 0) = Ret (Some (feature_of 5 None)).
Proof.
  intros c st. split; [|reflexivity].
  apply (jump_to_filtered_by_oid init st c 0 (feature_of 5 None));
    [reflexivity|reflexivity|reflexivity|].
  intros j g Hlt. lia.
Defined.

Lemma scan_index_has (c : cursor) (i : Z) (fs : list feature) (m : gmap Z Z)
    (o : Z) :
  (exists r, r ∈ scanned_rows c /\ row_oid r = Some o) \/ is_Some (m !! o) ->
  is_Some ((scan c i fs m).1.2 !! o).
Proof.
  revert i fs m. induction c as [|r0 rest IH|]; intros i fs m; simpl.
  - intros [(r & Hr & _)|Hm]; [by apply elem_of_nil in Hr|done].
  - intros [(r & Hr & Ho)|Hm].
    + apply elem_of_cons in Hr as [->|Hr].
      * rewrite Ho. apply IH. right. rewrite lookup_insert_eq. eauto.
      * destruct (row_oid r0); apply IH; left; eauto.
    + destruct (row_oid r0) as [o0|]; apply IH; right; [|done].
      rewrite lookup_insert. case_decide; eauto.
  - intros [(r & Hr & _)|Hm]; [by apply elem_of_nil in Hr|done].
Qed.

(** X17. After a load that fails, every identifier the scan met before the
    failure is still in the dictionary over an empty list: [go_to_oid] on it
    writes the stale position to the cursor and leaves with [IndexError]. *)
Theorem go_to_oid_after_failed_load (st : navigator) (c : cursor) (r : row) (o : Z) :
  load_ok c = false ->
  r ∈ scanned_rows c ->
  row_oid r = Some o ->
  features (_load_features st c) = [] /\
  exists p, oid_map (_load_features st c) !! o = Some p /\
    go_to_oid (_load_features st c) o =
      (set_index (_load_features st c) p, Raise IndexError) /\
    snd (go_to_oid (_load_features st c) o) = Raise IndexError /\
    current_index (fst (go_to_oid (_load_features st c) o)) = p /\
    features (fst (go_to_oid (_load_features st c) o)) = [].
Proof.
  intros Hfail Hr Ho.
  assert (Hnil : features (_load_features st c) = [])
    by (by rewrite load_features_eq, Hfail).
  split; [done|].
  destruct (scan_index_has c 0 [] ∅ o) as [p Hp]; [left; eauto|].
  rewrite <- (load_oid_map st) in Hp.
  exists p. split; [done|].
  assert (Hgo : go_to_oid (_load_features st c) o =
                (set_index (_load_features st c) p, Raise IndexError)).
  { unfold go_to_oid. rewrite Hp.
    cbn [set_index features current_index]. rewrite Hnil.
    assert (Hget : py_getitem (@nil feature) p = None).
    { unfold py_getitem. simpl. by rewrite !bool_decide_eq_false_2 by lia. }
    by rewrite Hget. }
  rewrite Hgo. cbn [fst snd set_index current_index features].
  by rewrite Hnil.
Qed.

(** X17 on a scan that fails behind the rows 5 and 7. *)
Lemma go_to_oid_after_failed_load_witness :
  let c := failing_after [Row (Some 5) None; Row (Some 7) None] in
  current_index (new c) = 0 /\
  exists p, oid_map (new c) !! 7 = Some p /\
    snd (go_to_oid (new c) 7) = Raise IndexError /\
    current_index (fst (go_to_oid (new c) 7)) = p /\
    p = 1.
Proof.
  intros c. split; [reflexivity|].
  destruct (go_to_oid_after_failed_load init c (Row (Some 7) None) 7)
    as (_ & p & Hp & _ & Hraise & Hcur & _); [reflexivity| |reflexivity|].
  - subst c. simpl. right. left.
  - exists p. split; [exact Hp|]. split; [exact Hraise|]. split; [exact Hcur|].
    vm_compute in Hp. by injection Hp as <-.
Defined.
End navigator_filter_jump.
